(** * ennemi: the lag-alignment driver ([ennemi/_driver.py])

    A shallow embedding of [estimate_mi], [_check_parameters],
    [_should_be_parallel] and [_lagged_mi], followed by the properties of the
    alignment windows, the validation order, the dispatch decision and the
    result grid.

    Conventions of the embedding.
    - Python integers ([lag], [cond_lag], [k], slice bounds) are [Z]; NumPy's
      integer arrays are lists of [Z] (the lags of a call are far inside the
      64-bit range, being bounded by the series length).
    - One-dimensional arrays are lists.  Slicing follows Python: a negative
      bound counts from the end and every bound is clamped to the array.
    - A [raise] is the [Raise] outcome of the [result] type; the two
      estimators of [_entropy_estimators] and the process pool's [map] are
      parameters of the development.
    - [estimate_mi] returns, next to its outcome, the list of task
      descriptors on which [_lagged_mi] has been invoked, in invocation
      order, so that "before any task runs" is a statement about a value. *)

From Stdlib Require Import ZArith Lia.
From stdpp Require Import base list strings.

Local Open Scope Z_scope.

(** ** Outcomes *)

Inductive exn : Type :=
| ValueError (msg : string)
| TypeError (msg : string)
| IndexError (msg : string).

Inductive result (A : Type) : Type :=
| Ok (a : A)
| Raise (e : exn).
Arguments Ok {A} a.
Arguments Raise {A} e.

#[global] Instance result_ret : MRet result := λ A a, Ok a.

#[global] Instance result_bind : MBind result := λ A B f m,
  match m with
  | Ok a => f a
  | Raise e => Raise e
  end.

Definition is_ok {A : Type} (m : result A) : bool :=
  match m with Ok _ => true | Raise _ => false end.

(** ** Python and NumPy primitives *)

Definition len {A : Type} (a : list A) : Z := Z.of_nat (length a).

(** The position a slice bound [i] denotes in a sequence of length [n]:
    [i + n] for a negative bound, and in both cases clamped to [0 .. n]. *)
Definition slice_index (n i : Z) : Z :=
  if i <? 0 then Z.max (i + n) 0 else Z.min i n.

(** [a[start:stop]] *)
Definition py_slice {A : Type} (a : list A) (start stop : Z) : list A :=
  let s := slice_index (len a) start in
  let e := slice_index (len a) stop in
  take (Z.to_nat (e - s)) (drop (Z.to_nat s) a).

(** The mask as the array [np.asarray(mask)] denotes: of dtype [bool], or of
    another (integer) dtype. *)
Inductive mask_array : Type :=
| BoolArray (bs : list bool)
| IntArray (zs : list Z).

Definition mask_len (m : mask_array) : Z :=
  match m with
  | BoolArray bs => len bs
  | IntArray zs => len zs
  end.

Definition mask_dtype_is_bool (m : mask_array) : bool :=
  match m with
  | BoolArray _ => true
  | IntArray _ => false
  end.

(** [mask[start:stop]]: a slice keeps the dtype. *)
Definition mask_slice (m : mask_array) (start stop : Z) : mask_array :=
  match m with
  | BoolArray bs => BoolArray (py_slice bs start stop)
  | IntArray zs => IntArray (py_slice zs start stop)
  end.

(** The elements of [a] at the [True] positions of [bs]. *)
Fixpoint bool_select {A : Type} (a : list A) (bs : list bool) : list A :=
  match a, bs with
  | v :: a', b :: bs' =>
      if b then v :: bool_select a' bs' else bool_select a' bs'
  | _, _ => []
  end.

(** [a[i]] for an integer [i]: negative positions count from the end. *)
Definition item {A : Type} (a : list A) (i : Z) : result A :=
  let j := if i <? 0 then i + len a else i in
  if (0 <=? j) && (j <? len a) then
    match a !! Z.to_nat j with
    | Some v => Ok v
    | None => Raise (IndexError "index out of bounds")
    end
  else Raise (IndexError "index out of bounds").

Fixpoint take_items {A : Type} (a : list A) (zs : list Z) : result (list A) :=
  match zs with
  | [] => Ok []
  | i :: zs' =>
      v ← item a i;
      vs ← take_items a zs';
      Ok (v :: vs)
  end.

(** [a[m]] for an index array [m]: a boolean array selects by position and
    must be as long as [a], except that NumPy does not check the size of
    an empty boolean index, which selects nothing from any array; an
    integer array picks elements. *)
Definition nd_index {A : Type} (a : list A) (m : mask_array) : result (list A) :=
  match m with
  | BoolArray bs =>
      if decide (length bs = length a) then Ok (bool_select a bs)
      else
        match bs with
        | [] => Ok []
        | _ :: _ =>
            Raise (IndexError "boolean index did not match indexed array")
        end
  | IntArray zs => take_items a zs
  end.

(** [np.min] and [np.max] of an integer array; both raise on an empty one. *)
Definition np_min (a : list Z) : result Z :=
  match a with
  | [] => Raise (ValueError "zero-size array to reduction operation")
  | v :: a' => Ok (fold_left Z.min a' v)
  end.

Definition np_max (a : list Z) : result Z :=
  match a with
  | [] => Raise (ValueError "zero-size array to reduction operation")
  | v :: a' => Ok (fold_left Z.max a' v)
  end.

(** The [lag] argument: an [int] or a sequence of integers. *)
Inductive lag_arg : Type :=
| LagInt (l : Z)
| LagSeq (ls : list Z).

(** [if isinstance(lag, int): lag = [lag]] then [np.asarray(lag)] *)
Definition as_lag_array (lag : lag_arg) : list Z :=
  match lag with
  | LagInt l => [l]
  | LagSeq ls => ls
  end.

(** [min_lag] and [max_lag] of a call. *)
Definition lag_bounds (lag : list Z) (cond_lag : Z) : result (Z * Z) :=
  lo1 ← np_min lag;
  lo2 ← np_min (map (λ l, l + cond_lag) lag);
  hi1 ← np_max lag;
  hi2 ← np_max (map (λ l, l + cond_lag) lag);
  Ok (Z.min lo1 lo2, Z.max hi1 hi2).

(** The test guarding ["lag is too large, no observations left"]. *)
Definition lag_too_large (n min_lag max_lag : Z) : bool :=
  (max_lag - min_lag >=? n) || (max_lag >=? n) || (min_lag <=? - n).

(** [_should_be_parallel(parallel, indices, y)] *)
Definition _should_be_parallel {I A : Type}
    (parallel : option string) (indices : list I) (y : list A) : result bool :=
  match parallel with
  | Some s =>
      if String.eqb s "always" then Ok true
      else if String.eqb s "disable" then Ok false
      else Raise (ValueError "unrecognized value for parallel argument")
  | None => Ok ((len indices >? 1) && (len y >? 200))
  end.

Section Driver.

Context {R F : Type}.

(** Filler for positions outside a row of [x]; a well-formed matrix never
    shows it. *)
Variable dflt : R.

(** ** Arrays of observations *)

(** [x] after [np.asarray]: a series, or a matrix of shape
    [(length rows, nvar)] given by its rows. *)
Inductive xarray : Type :=
| X1d (v : list R)
| X2d (nvar : nat) (rows : list (list R)).

(** [x.shape[0]] *)
Definition x_shape0 (x : xarray) : Z :=
  match x with
  | X1d v => len v
  | X2d _ rows => len rows
  end.

(** [nvar]: 1 when [x.ndim == 1], else [x.shape[1]]. *)
Definition x_nvar (x : xarray) : nat :=
  match x with
  | X1d _ => 1%nat
  | X2d nvar _ => nvar
  end.

(** [x[:, j]] *)
Definition column (rows : list (list R)) (j : nat) : list R :=
  map (λ row, nth j row dflt) rows.

(** [_check_parameters(x, y, k, cond, mask)] *)
Definition _check_parameters (x : xarray) (y : list R) (k : Z)
    (cond : option (list R)) (mask : option mask_array) : result unit :=
  if negb (x_shape0 x =? len y) then
    Raise (ValueError "x and y must have same length")
  else if match cond with
          | Some c => negb (x_shape0 x =? len c)
          | None => false
          end then
    Raise (ValueError "x and cond must have same length")
  else if x_shape0 x <=? k then
    Raise (ValueError "k must be smaller than number of observations")
  else
    match mask with
    | Some m =>
        if negb (mask_len m =? len y) then
          Raise (ValueError "mask length does not match y length")
        else if negb (mask_dtype_is_bool m) then
          Raise (TypeError "mask must contain only booleans")
        else Ok tt
    | None => Ok tt
    end.

(** ** Tasks *)

(** The parameter tuple
    [(x, y, lag, max_lag, min_lag, k, mask, cond, cond_lag)]. *)
Record task : Type := Task {
  t_x : list R;
  t_y : list R;
  t_lag : Z;
  t_max_lag : Z;
  t_min_lag : Z;
  t_k : Z;
  t_mask : option mask_array;
  t_cond : option (list R);
  t_cond_lag : Z
}.

(** [x[max_lag-lag : len(x)-lag+min(min_lag, 0)]] *)
Definition x_window (t : task) : list R :=
  py_slice (t_x t) (t_max_lag t - t_lag t)
    (len (t_x t) - t_lag t + Z.min (t_min_lag t) 0).

(** [y[max_lag : len(y)+min(min_lag, 0)]] *)
Definition y_window (t : task) : list R :=
  py_slice (t_y t) (t_max_lag t) (len (t_y t) + Z.min (t_min_lag t) 0).

(** [mask[max_lag : len(y)+min(min_lag, 0)]] *)
Definition mask_window (t : task) (m : mask_array) : mask_array :=
  mask_slice m (t_max_lag t) (len (t_y t) + Z.min (t_min_lag t) 0).

(** [cond[max_lag-(lag+cond_lag) : len(cond)-(lag+cond_lag)+min(min_lag, 0)]] *)
Definition cond_window (t : task) (c : list R) : list R :=
  py_slice c (t_max_lag t - (t_lag t + t_cond_lag t))
    (len c - (t_lag t + t_cond_lag t) + Z.min (t_min_lag t) 0).

(** [a[mask_subset]] when a mask is given, [a] otherwise. *)
Definition masked (t : task) (a : list R) : result (list R) :=
  match t_mask t with
  | Some m => nd_index a (mask_window t m)
  | None => Ok a
  end.

Variable _estimate_single_mi : list R → list R → Z → result F.
Variable _estimate_conditional_mi : list R → list R → list R → Z → result F.

(** [_lagged_mi(param_tuple)] *)
Definition _lagged_mi (t : task) : result F :=
  xs ← masked t (x_window t);
  ys ← masked t (y_window t);
  match t_cond t with
  | None => _estimate_single_mi xs ys (t_k t)
  | Some c =>
      zs ← masked t (cond_window t c);
      _estimate_conditional_mi xs ys zs (t_k t)
  end.

(** ** The result grid *)

(** A cell of [np.empty((len(lag), nvar))] is [None] until it is assigned. *)
Local Abbreviation grid := (list (list (option F))).

Definition np_empty (nrow ncol : nat) : grid :=
  replicate nrow (replicate ncol None).

(** [result[index] = res] for an index pair. *)
Definition set_cell (g : grid) (ix : nat * nat) (v : F) : result grid :=
  match g !! ix.1 with
  | Some row =>
      if decide (ix.2 < length row)%nat
      then Ok (<[ix.1 := <[ix.2 := Some v]> row]> g)
      else Raise (IndexError "index out of bounds")
  | None => Raise (IndexError "index out of bounds")
  end.

(** [for index, res in zip(indices, conc_result): result[index] = res],
    over results that are already there. *)
Fixpoint collect (g : grid) (items : list ((nat * nat) * result F))
    : result grid :=
  match items with
  | [] => Ok g
  | (ix, r) :: rest =>
      v ← r;
      g' ← set_cell g ix v;
      collect g' rest
  end.

(** The same loop over the lazy [map(_lagged_mi, params)]: a task runs when
    the loop reaches it, and the first failure ends the call.  The first
    component lists the tasks that ran. *)
Fixpoint run_sequential (g : grid) (work : list ((nat * nat) * task))
    : list task * result grid :=
  match work with
  | [] => ([], Ok g)
  | (ix, t) :: rest =>
      match _lagged_mi t with
      | Raise e => ([t], Raise e)
      | Ok v =>
          match set_cell g ix v with
          | Raise e => ([t], Raise e)
          | Ok g' =>
              let '(ran, out) := run_sequential g' rest in (t :: ran, out)
          end
      end
  end.

(** ** The call *)

(** [list(itertools.product(range(nlag), range(nvar)))] *)
Definition indices (nlag nvar : nat) : list (nat * nat) :=
  flat_map (λ i, map (λ j, (i, j)) (seq 0 nvar)) (seq 0 nlag).

(** [params]; [indices] only holds positions inside [lag] and [x]. *)
Definition params (x : xarray) (y : list R) (lag : list Z)
    (max_lag min_lag k : Z) (mask : option mask_array)
    (cond : option (list R)) (cond_lag : Z) : list task :=
  match x with
  | X1d v =>
      map (λ l, Task v y l max_lag min_lag k mask cond cond_lag) lag
  | X2d nvar rows =>
      map (λ i : nat * nat,
             Task (column rows i.2) y (nth i.1 lag 0)
                  max_lag min_lag k mask cond cond_lag)
          (indices (length lag) nvar)
  end.

(** What [estimate_mi] has settled when it reaches the dispatch. *)
Record plan : Type := Plan {
  p_nlag : nat;
  p_nvar : nat;
  p_indices : list (nat * nat);
  p_params : list task;
  p_parallel : bool
}.

(** [estimate_mi] up to and including the call of [_should_be_parallel]. *)
Definition prepare (y : list R) (x : xarray) (lag : lag_arg) (k : Z)
    (cond : option (list R)) (cond_lag : Z) (mask : option mask_array)
    (parallel : option string) : result plan :=
  let lag := as_lag_array lag in
  _ ← _check_parameters x y k cond mask;
  '(min_lag, max_lag) ← lag_bounds lag cond_lag;
  if lag_too_large (len y) min_lag max_lag then
    Raise (ValueError "lag is too large, no observations left")
  else
    let nvar := x_nvar x in
    let ixs := indices (length lag) nvar in
    let ps := params x y lag max_lag min_lag k mask cond cond_lag in
    par ← _should_be_parallel parallel ixs y;
    Ok (Plan (length lag) nvar ixs ps par).

(** [Executor.map] of the process pool: every task is submitted, and the
    results come back in the order of the tasks. *)
Variable executor_map : (task → result F) → list task → list (result F).

(** The dispatch and the collection of the results. *)
Definition execute (p : plan) : list task * result grid :=
  let g := np_empty (p_nlag p) (p_nvar p) in
  if p_parallel p then
    (p_params p,
     collect g (zip (p_indices p) (executor_map _lagged_mi (p_params p))))
  else
    run_sequential g (zip (p_indices p) (p_params p)).

(** [estimate_mi(y, x, lag, k=, cond=, cond_lag=, mask=, parallel=)]: the
    tasks that ran, and the grid or the failure.  The relabelling of the
    grid for a pandas [x] does not touch its values and is left out. *)
Definition estimate_mi (y : list R) (x : xarray) (lag : lag_arg) (k : Z)
    (cond : option (list R)) (cond_lag : Z) (mask : option mask_array)
    (parallel : option string) : list task * result grid :=
  match prepare y x lag k cond cond_lag mask parallel with
  | Raise e => ([], Raise e)
  | Ok p => execute p
  end.

End Driver.

Arguments xarray : clear implicits.
Arguments task : clear implicits.
Arguments plan : clear implicits.

(** ** Vocabulary of the statements *)

(** [lo] is the least and [hi] the greatest element of [lag]. *)
Definition extremes (lag : list Z) (lo hi : Z) : Prop :=
  lo ∈ lag ∧ hi ∈ lag ∧ ∀ l, l ∈ lag → lo ≤ l ≤ hi.

(** The elements of [a] at the positions [s ≤ i < e]. *)
Definition span {A : Type} (a : list A) (s e : Z) : list A :=
  take (Z.to_nat e - Z.to_nat s) (drop (Z.to_nat s) a).

(** The variable a task of column [j] reads. *)
Definition x_variable {R : Type} (dflt : R) (x : xarray R) (j : nat) : list R :=
  match x with
  | X1d v => v
  | X2d _ rows => column dflt rows j
  end.

(** The task of lag position [i] and variable position [j]. *)
Definition task_at {R : Type} (dflt : R) (x : xarray R) (y : list R)
    (lags : list Z) (mx mn k : Z) (mask : option mask_array)
    (cond : option (list R)) (c : Z) (ix : nat * nat) : task R :=
  Task (x_variable dflt x ix.2) y (nth ix.1 lags 0) mx mn k mask cond c.

(** A task as a call over series of length [n] builds it: its lag is one of
    the call's, its bounds are the call's, its arrays have length [n]. *)
Record task_of_call {R : Type} (n : Z) (lags : list Z) (c mn mx : Z)
    (t : task R) : Prop := {
  toc_lag : t_lag t ∈ lags;
  toc_x : len (t_x t) = n;
  toc_y : len (t_y t) = n;
  toc_cond : ∀ cs, t_cond t = Some cs → len cs = n;
  toc_max : t_max_lag t = mx;
  toc_min : t_min_lag t = mn;
  toc_cond_lag : t_cond_lag t = c
}.

(** The content of a cell: [None] outside the grid, [Some None] for a cell
    that has not been assigned. *)
Definition cell {F : Type} (g : list (list (option F))) (ix : nat * nat)
    : option (option F) :=
  g !! ix.1 ≫= λ row, row !! ix.2.

Definition has_shape {F : Type} (g : list (list (option F))) (n m : nat)
    : Prop :=
  length g = n ∧ ∀ row, row ∈ g → length row = m.

(** The mask of [len(y)] times [True]. *)
Definition keep_all {R : Type} (y : list R) : mask_array :=
  BoolArray (replicate (length y) true).

(** The number of [True] entries of a boolean array. *)
Fixpoint count_true (bs : list bool) : nat :=
  match bs with
  | [] => 0
  | b :: bs' => if b then S (count_true bs') else count_true bs'
  end.

(** ** Sample data *)

Module Sample.

(** A stand-in estimator: it reports the sizes of the windows it is given. *)
Definition sizes1 (xs ys : list Z) (k : Z) : result (nat * nat * nat) :=
  Ok (length xs, length ys, 0%nat).
Definition sizes2 (xs ys zs : list Z) (k : Z) : result (nat * nat * nat) :=
  Ok (length xs, length ys, length zs).

(** A stand-in pool that computes the results in place. *)
Definition pool {F : Type} (f : task Z → result F) (l : list (task Z))
    : list (result F) :=
  map f l.

Definition run := estimate_mi 0 sizes1 sizes2 pool.

Definition series : list Z := [1; 2; 3; 4; 5].
Definition matrix : xarray Z :=
  X2d 2 [[1; 2]; [3; 4]; [5; 6]; [7; 8]; [9; 10]].
Definition some_mask : mask_array :=
  BoolArray [true; true; false; true; true].

(** The task of [estimate_mi(series, series, lag)] for a single lag. *)
Definition single (l : Z) : task Z :=
  Task series series l l l 1 None None 0.

(** The call [estimate_mi(series, matrix, [0, 1, -1], k=1, cond=series,
    cond_lag=1, mask=some_mask)] at the dispatch, and its task for lag 1
    and the second variable. *)
Definition plan3 : plan Z :=
  Plan 3 2 (indices 3 2)
    (params 0 matrix series [0; 1; -1] 2 (-1) 1
       (Some some_mask) (Some series) 1)
    false.
Definition task3 : task Z :=
  Task [2; 4; 6; 8; 10] series 1 2 (-1) 1 (Some some_mask) (Some series) 1.

(** The decade [0 .. 9]. *)
Definition decade : list Z := [0; 1; 2; 3; 4; 5; 6; 7; 8; 9].

(** A stand-in estimator that fails on tied observations of [x]. *)
Definition no_ties1 (xs ys : list Z) (k : Z) : result (nat * nat * nat) :=
  if decide (NoDup xs) then Ok (length xs, length ys, 0%nat)
  else Raise (ValueError "tied observations").
Definition no_ties2 (xs ys zs : list Z) (k : Z) : result (nat * nat * nat) :=
  if decide (NoDup xs) then Ok (length xs, length ys, length zs)
  else Raise (ValueError "tied observations").

(** A matrix whose second variable is constant. *)
Definition tied_matrix : xarray Z :=
  X2d 2 [[1; 7]; [3; 7]; [5; 7]; [7; 7]; [9; 7]].

End Sample.

(** * Properties *)

(** ** Slices *)

Section Slices.

Context {A : Type}.
Implicit Types (a : list A) (s e : Z).

Lemma len_nonneg a : 0 ≤ len a.
Proof. unfold len. lia. Qed.

Lemma slice_index_in_range n i : 0 ≤ i ≤ n → slice_index n i = i.
Proof. intros H. unfold slice_index. destruct (Z.ltb_spec i 0); lia. Qed.

Lemma slice_index_negative n i : i < 0 → - n ≤ i → slice_index n i = i + n.
Proof. intros H1 H2. unfold slice_index. destruct (Z.ltb_spec i 0); lia. Qed.

(** Inside the array a slice is the run of elements from [s] up to, not
    including, [e]. *)
Lemma py_slice_in_range a s e :
  0 ≤ s → s ≤ e → e ≤ len a →
  py_slice a s e = take (Z.to_nat e - Z.to_nat s) (drop (Z.to_nat s) a).
Proof.
  intros Hs Hse He. unfold py_slice.
  rewrite !slice_index_in_range by lia.
  f_equal. lia.
Qed.

Lemma py_slice_length a s e :
  0 ≤ s → s ≤ e → e ≤ len a → len (py_slice a s e) = e - s.
Proof.
  intros Hs Hse He. rewrite py_slice_in_range by lia.
  unfold len in *. rewrite length_take, length_drop. lia.
Qed.

Lemma py_slice_lookup a s e (i : nat) :
  0 ≤ s → s ≤ e → e ≤ len a → Z.of_nat i < e - s →
  py_slice a s e !! i = a !! (Z.to_nat s + i)%nat.
Proof.
  intros Hs Hse He Hi. rewrite py_slice_in_range by lia.
  rewrite lookup_take_lt by lia. apply lookup_drop.
Qed.

(** A negative start counts from the end: with a stop that lies before it
    nothing is left. *)
Lemma py_slice_wrapped_empty a s e :
  s < 0 → - len a ≤ s → 0 ≤ e → e ≤ s + len a → py_slice a s e = [].
Proof.
  intros Hs Hs' He Hes. unfold py_slice.
  rewrite (slice_index_negative _ s) by lia.
  rewrite (slice_index_in_range _ e) by lia.
  replace (Z.to_nat (e - (s + len a))) with 0%nat by lia.
  apply take_0.
Qed.

Lemma py_slice_whole a : py_slice a 0 (len a) = a.
Proof.
  rewrite py_slice_in_range by (pose proof (len_nonneg a); lia).
  simpl. rewrite drop_0. apply take_ge. unfold len. lia.
Qed.

End Slices.

Lemma py_slice_replicate {A : Type} (v : A) (n : nat) s e :
  0 ≤ s → s ≤ e → e ≤ Z.of_nat n →
  py_slice (replicate n v) s e = replicate (Z.to_nat (e - s)) v.
Proof.
  intros Hs Hse He.
  rewrite py_slice_in_range by (unfold len; rewrite ?length_replicate; lia).
  rewrite drop_replicate, take_replicate. f_equal. lia.
Qed.

(** ** Boolean selection *)

Lemma bool_select_all_true {A : Type} (a : list A) :
  bool_select a (replicate (length a) true) = a.
Proof. induction a as [|v a IH]; simpl; [done | by rewrite IH]. Qed.

Lemma nd_index_all_true {A : Type} (a : list A) (n : nat) :
  n = length a → nd_index a (BoolArray (replicate n true)) = Ok a.
Proof.
  intros ->. unfold nd_index. rewrite length_replicate.
  destruct (decide _) as [_|Hne]; [|done].
  by rewrite bool_select_all_true.
Qed.

Lemma nd_index_bool_mismatch {A : Type} (a : list A) (bs : list bool) :
  bs ≠ [] → length bs ≠ length a →
  nd_index a (BoolArray bs)
  = Raise (IndexError "boolean index did not match indexed array").
Proof.
  intros Hne H. unfold nd_index. destruct (decide _); [done|].
  by destruct bs.
Qed.

Lemma nd_index_empty {A : Type} (a : list A) :
  nd_index a (BoolArray []) = Ok [].
Proof.
  unfold nd_index. destruct (decide _); [|done]. by destruct a.
Qed.

(** ** The bounds [min_lag] and [max_lag] *)

Lemma fold_min_le (a : list Z) (v : Z) :
  fold_left Z.min a v ≤ v ∧ ∀ l, l ∈ a → fold_left Z.min a v ≤ l.
Proof.
  revert v. induction a as [|w a IH]; intros v; simpl.
  - split; [lia | intros l Hl; by apply elem_of_nil in Hl].
  - destruct (IH (Z.min v w)) as [H1 H2]. split; [lia|].
    intros l [->|Hl]%elem_of_cons; [lia | by apply H2].
Qed.

Lemma fold_min_elem (a : list Z) (v : Z) :
  fold_left Z.min a v ∈ v :: a.
Proof.
  revert v. induction a as [|w a IH]; intros v; simpl.
  - apply list_elem_of_here.
  - specialize (IH (Z.min v w)).
    apply elem_of_cons in IH as [IH|IH].
    + rewrite IH. destruct (Z.min_spec v w) as [[_ ->]|[_ ->]].
      * apply list_elem_of_here.
      * apply list_elem_of_further, list_elem_of_here.
    + by do 2 apply list_elem_of_further.
Qed.

Lemma fold_max_ge (a : list Z) (v : Z) :
  v ≤ fold_left Z.max a v ∧ ∀ l, l ∈ a → l ≤ fold_left Z.max a v.
Proof.
  revert v. induction a as [|w a IH]; intros v; simpl.
  - split; [lia | intros l Hl; by apply elem_of_nil in Hl].
  - destruct (IH (Z.max v w)) as [H1 H2]. split; [lia|].
    intros l [->|Hl]%elem_of_cons; [lia | by apply H2].
Qed.

Lemma fold_max_elem (a : list Z) (v : Z) :
  fold_left Z.max a v ∈ v :: a.
Proof.
  revert v. induction a as [|w a IH]; intros v; simpl.
  - apply list_elem_of_here.
  - specialize (IH (Z.max v w)).
    apply elem_of_cons in IH as [IH|IH].
    + rewrite IH. destruct (Z.max_spec v w) as [[_ ->]|[_ ->]].
      * apply list_elem_of_further, list_elem_of_here.
      * apply list_elem_of_here.
    + by do 2 apply list_elem_of_further.
Qed.

Lemma fold_min_shift (a : list Z) (v c : Z) :
  fold_left Z.min (map (λ l, l + c) a) (v + c) = fold_left Z.min a v + c.
Proof.
  revert v. induction a as [|w a IH]; intros v; simpl; [done|].
  rewrite <- IH. f_equal. lia.
Qed.

Lemma fold_max_shift (a : list Z) (v c : Z) :
  fold_left Z.max (map (λ l, l + c) a) (v + c) = fold_left Z.max a v + c.
Proof.
  revert v. induction a as [|w a IH]; intros v; simpl; [done|].
  rewrite <- IH. f_equal. lia.
Qed.

(** [min_lag] is the smaller of the least lag and the least lag plus
    [cond_lag], and likewise [max_lag]; there are no bounds without a lag. *)
Lemma lag_bounds_ok (lag : list Z) (c mn mx : Z) :
  lag_bounds lag c = Ok (mn, mx) →
  ∃ lo hi, extremes lag lo hi ∧
           mn = Z.min lo (lo + c) ∧ mx = Z.max hi (hi + c).
Proof.
  destruct lag as [|v a]; [done|].
  unfold lag_bounds. cbn -[Z.min Z.max]. intros [= <- <-].
  exists (fold_left Z.min a v), (fold_left Z.max a v).
  rewrite fold_min_shift, fold_max_shift.
  split; [|done].
  split; [apply fold_min_elem|]. split; [apply fold_max_elem|].
  destruct (fold_min_le a v) as [Hv Ha], (fold_max_ge a v) as [Hv' Ha'].
  intros l [->|Hl]%elem_of_cons; [done|].
  split; [by apply Ha | by apply Ha'].
Qed.

Lemma lag_bounds_nonempty (lag : list Z) (c : Z) :
  lag ≠ [] → ∃ mn mx, lag_bounds lag c = Ok (mn, mx).
Proof. destruct lag as [|v a]; [done|]. intros _. by eexists _, _. Qed.

Lemma lag_bounds_empty (c : Z) :
  lag_bounds [] c = Raise (ValueError "zero-size array to reduction operation").
Proof. done. Qed.

Lemma extremes_unique lag lo hi lo' hi' :
  extremes lag lo hi → extremes lag lo' hi' → lo = lo' ∧ hi = hi'.
Proof.
  intros (H1 & H2 & H3) (H1' & H2' & H3').
  pose proof (H3 _ H1'). pose proof (H3 _ H2').
  pose proof (H3' _ H1). pose proof (H3' _ H2). lia.
Qed.

Lemma lag_too_large_false n mn mx :
  lag_too_large n mn mx = false ↔ mx - mn < n ∧ mx < n ∧ mn > - n.
Proof. unfold lag_too_large. rewrite !orb_false_iff. lia. Qed.

Lemma lag_too_large_true n mn mx :
  lag_too_large n mn mx = true ↔ ¬ (mx - mn < n ∧ mx < n ∧ mn > - n).
Proof. rewrite <- lag_too_large_false. by destruct (lag_too_large n mn mx). Qed.

(** ** The validator and the steps before the dispatch *)

Section Prelude.

Context {R F : Type}.
Variable dflt : R.
Implicit Types (x : xarray R) (y : list R) (cond : option (list R))
  (mask : option mask_array) (lag : lag_arg) (k c : Z).

(** The test on [cond] compares with [x.shape[0]], which by then is known
    to be [len(y)]. *)
Lemma check_parameters_ok x y k cond mask :
  _check_parameters x y k cond mask = Ok tt ↔
  x_shape0 x = len y ∧
  (∀ cs, cond = Some cs → len cs = len y) ∧
  k < x_shape0 x ∧
  (∀ m, mask = Some m → mask_len m = len y ∧ mask_dtype_is_bool m = true).
Proof.
  unfold _check_parameters. split.
  - destruct (Z.eqb_spec (x_shape0 x) (len y)) as [Hxy|Hxy]; simpl; [|done].
    intros H. split; [done|].
    assert (∀ cs, cond = Some cs → len cs = len y) as Hcond.
    { intros cs ->. destruct (Z.eqb_spec (x_shape0 x) (len cs)); [lia|done]. }
    split; [done|].
    destruct (match cond with Some cs => _ | None => _ end); [done|].
    destruct (Z.leb_spec (x_shape0 x) k) as [Hk|Hk]; [done|].
    split; [done|]. intros m ->.
    destruct (Z.eqb_spec (mask_len m) (len y)); simpl in H; [|done].
    by destruct (mask_dtype_is_bool m).
  - intros (Hxy & Hcond & Hk & Hmask).
    destruct (Z.eqb_spec (x_shape0 x) (len y)); simpl; [|done].
    destruct cond as [cs|]; simpl.
    + specialize (Hcond cs eq_refl).
      destruct (Z.eqb_spec (x_shape0 x) (len cs)); simpl; [|lia].
      destruct (Z.leb_spec (x_shape0 x) k); [lia|].
      destruct mask as [m|]; [|done].
      destruct (Hmask m eq_refl) as [Hm ->].
      by destruct (Z.eqb_spec (mask_len m) (len y)).
    + destruct (Z.leb_spec (x_shape0 x) k); [lia|].
      destruct mask as [m|]; [|done].
      destruct (Hmask m eq_refl) as [Hm ->].
      by destruct (Z.eqb_spec (mask_len m) (len y)).
Qed.

Lemma result_unit_cases (m : result unit) : m = Ok tt ∨ ∃ e, m = Raise e.
Proof. destruct m as [[]|e]; eauto. Qed.

(** [prepare] succeeds exactly when the four steps before the dispatch do,
    and then hands over the index pairs and the tasks built from the
    call-wide bounds. *)
Lemma prepare_ok y x lag k cond c mask parallel (p : plan R) :
  prepare dflt y x lag k cond c mask parallel = Ok p ↔
  _check_parameters x y k cond mask = Ok tt ∧
  ∃ mn mx par,
    lag_bounds (as_lag_array lag) c = Ok (mn, mx) ∧
    lag_too_large (len y) mn mx = false ∧
    _should_be_parallel parallel
      (indices (length (as_lag_array lag)) (x_nvar x)) y = Ok par ∧
    p = Plan (length (as_lag_array lag)) (x_nvar x)
          (indices (length (as_lag_array lag)) (x_nvar x))
          (params dflt x y (as_lag_array lag) mx mn k mask cond c) par.
Proof.
  unfold prepare.
  destruct (result_unit_cases (_check_parameters x y k cond mask))
    as [->|[e ->]]; simpl; [|split; [done | by intros [? _]]].
  destruct (lag_bounds (as_lag_array lag) c) as [[mn mx]|e]; simpl;
    [|split; [done | by intros (_ & ? & ? & ? & ? & _)]].
  destruct (lag_too_large (len y) mn mx) eqn:Hl.
  { split; [done|]. intros (_ & ? & ? & ? & [= <- <-] & ? & _). congruence. }
  destruct (_should_be_parallel _ _ _) as [par|e] eqn:Hp; simpl.
  - split.
    + intros [= <-]. split; [done|]. by exists mn, mx, par.
    + intros (_ & ? & ? & ? & [= <- <-] & _ & [= <-] & ->). done.
  - split; [done|]. by intros (_ & ? & ? & ? & [= <- <-] & _ & ? & _).
Qed.

Lemma x_variable_len x j : len (x_variable dflt x j) = x_shape0 x.
Proof.
  destruct x as [v|n rows]; simpl; [done|].
  unfold column, len. by rewrite length_map.
Qed.

Lemma indices_single (n : nat) :
  indices n 1 = map (λ i, (i, 0%nat)) (seq 0 n).
Proof.
  unfold indices. induction (seq 0 n) as [|i l IH]; simpl; [done|].
  by f_equal.
Qed.

Lemma map_nth_seq {B : Type} (f : Z → B) (l : list Z) :
  map f l = map (λ i, f (nth i l 0)) (seq 0 (length l)).
Proof.
  induction l as [|v l IH]; simpl; [done|].
  f_equal. rewrite <- seq_shift, map_map. apply IH.
Qed.

(** Both branches that build [params] list the tasks in the order of
    [indices]. *)
Lemma params_by_index x y (lags : list Z) mx mn k mask cond c :
  params dflt x y lags mx mn k mask cond c
  = map (task_at dflt x y lags mx mn k mask cond c)
        (indices (length lags) (x_nvar x)).
Proof.
  destruct x as [v|n rows]; simpl; [|done].
  rewrite indices_single, map_map. unfold task_at. simpl.
  apply (map_nth_seq (λ l, Task v y l mx mn k mask cond c)).
Qed.

Lemma elem_of_indices (n m : nat) (ix : nat * nat) :
  ix ∈ indices n m ↔ (ix.1 < n)%nat ∧ (ix.2 < m)%nat.
Proof.
  unfold indices. rewrite list_elem_of_In, in_flat_map.
  destruct ix as [i j]; simpl. split.
  - intros (i' & Hi & Hj). apply in_seq in Hi.
    apply in_map_iff in Hj as (j' & [= <- <-] & Hj). apply in_seq in Hj. lia.
  - intros [Hi Hj]. exists i. split; [apply in_seq; lia|].
    apply in_map_iff. exists j. split; [done | apply in_seq; lia].
Qed.

Lemma length_indices (n m : nat) : length (indices n m) = (n * m)%nat.
Proof.
  unfold indices.
  transitivity (length (seq 0 n) * m)%nat; [|by rewrite length_seq].
  induction (seq 0 n) as [|i l IH]; simpl; [done|].
  by rewrite length_app, length_map, length_seq, IH.
Qed.

(** Lag-major, variable-minor: the tasks of the first lag for every
    variable, then those of the second lag, and so on. *)
Lemma indices_lag_major {B : Type} (f : nat * nat → B) (n m : nat) :
  map f (indices n m)
  = flat_map (λ i, map (λ j, f (i, j)) (seq 0 m)) (seq 0 n).
Proof.
  unfold indices. induction (seq 0 n) as [|i l IH]; simpl; [done|].
  by rewrite map_app, map_map, IH.
Qed.

(** What every task of a call carries. *)
Lemma elem_of_params x y (lags : list Z) mx mn k mask cond c (t : task R) :
  t ∈ params dflt x y lags mx mn k mask cond c →
  t_lag t ∈ lags ∧ len (t_x t) = x_shape0 x ∧ t_y t = y ∧
  t_max_lag t = mx ∧ t_min_lag t = mn ∧ t_k t = k ∧
  t_mask t = mask ∧ t_cond t = cond ∧ t_cond_lag t = c.
Proof.
  rewrite params_by_index.
  intros (ix & -> & Hix)%list_elem_of_fmap.
  apply elem_of_indices in Hix as [Hi _]. simpl.
  split; [|by rewrite x_variable_len].
  apply list_elem_of_In, nth_In. done.
Qed.

End Prelude.

(** ** The alignment windows *)

Lemma span_lookup {A : Type} (a : list A) (s e : Z) (i : nat) :
  0 ≤ s → s + Z.of_nat i < e → span a s e !! i = a !! (Z.to_nat s + i)%nat.
Proof.
  intros Hs Hi. unfold span. rewrite lookup_take_lt by lia. apply lookup_drop.
Qed.

Lemma span_len {A : Type} (a : list A) (s e : Z) :
  0 ≤ s → s ≤ e → e ≤ len a → len (span a s e) = e - s.
Proof.
  intros Hs Hse He. unfold span, len in *.
  rewrite length_take, length_drop. lia.
Qed.

Section Windows.

Context {R : Type}.
Implicit Types (t : task R) (lags : list Z).

(** The bounds enclose every lag and every lag shifted by [cond_lag], and
    the lag check leaves room for at least one observation. *)
Lemma bounds_enclose lags c mn mx (l : Z) :
  lag_bounds lags c = Ok (mn, mx) → l ∈ lags →
  mn ≤ l ≤ mx ∧ mn ≤ l + c ≤ mx.
Proof.
  intros (lo & hi & (_ & _ & H) & -> & ->)%lag_bounds_ok Hl.
  specialize (H l Hl). lia.
Qed.

Section Checked.

Variables (n : Z) (lags : list Z) (c mn mx : Z) (t : task R).
Hypothesis Hb : lag_bounds lags c = Ok (mn, mx).
Hypothesis Hl : lag_too_large n mn mx = false.
Hypothesis Ht : task_of_call n lags c mn mx t.

Lemma x_window_range :
  0 ≤ mx - t_lag t ∧
  mx - t_lag t < n - t_lag t + Z.min mn 0 ∧
  n - t_lag t + Z.min mn 0 ≤ n.
Proof.
  destruct (bounds_enclose _ _ _ _ _ Hb (toc_lag _ _ _ _ _ _ Ht)).
  pose proof (proj1 (lag_too_large_false _ _ _) Hl) as Hck. lia.
Qed.

Lemma cond_window_range :
  0 ≤ mx - (t_lag t + c) ∧
  mx - (t_lag t + c) < n - (t_lag t + c) + Z.min mn 0 ∧
  n - (t_lag t + c) + Z.min mn 0 ≤ n.
Proof.
  destruct (bounds_enclose _ _ _ _ _ Hb (toc_lag _ _ _ _ _ _ Ht)).
  pose proof (proj1 (lag_too_large_false _ _ _) Hl) as Hck. lia.
Qed.

(** The window of [x] never wraps: it is the run of [x] between the two
    bounds of its slice. *)
Lemma x_window_span :
  x_window t = span (t_x t) (mx - t_lag t) (n - t_lag t + Z.min mn 0).
Proof.
  destruct x_window_range as (H1 & H2 & H3). destruct Ht.
  unfold x_window. rewrite toc_x0, toc_max0, toc_min0.
  apply py_slice_in_range; lia.
Qed.

Lemma cond_window_span cs :
  t_cond t = Some cs →
  cond_window t cs
  = span cs (mx - (t_lag t + c)) (n - (t_lag t + c) + Z.min mn 0).
Proof.
  intros Hc. destruct cond_window_range as (H1 & H2 & H3). destruct Ht.
  unfold cond_window. rewrite (toc_cond0 _ Hc), toc_max0, toc_min0, toc_cond_lag0.
  apply py_slice_in_range; rewrite ?(toc_cond0 _ Hc); lia.
Qed.

Lemma y_window_slice :
  y_window t = py_slice (t_y t) mx (n + Z.min mn 0).
Proof. destruct Ht. unfold y_window. by rewrite toc_y0, toc_max0, toc_min0. Qed.

(** With a non-negative [max_lag] the window of [y] does not wrap either. *)
Lemma y_window_span :
  0 ≤ mx → y_window t = span (t_y t) mx (n + Z.min mn 0).
Proof.
  intros Hmx. rewrite y_window_slice. pose proof (proj1 (lag_too_large_false _ _ _) Hl) as Hck.
  apply py_slice_in_range; rewrite ?(toc_y _ _ _ _ _ _ Ht); lia.
Qed.

(** With a negative [max_lag] the start of the [y] slice counts from the
    end of [y] and lies at or after its stop: nothing is selected. *)
Lemma y_window_wrapped :
  mx < 0 → y_window t = [].
Proof.
  intros Hmx. rewrite y_window_slice.
  destruct (bounds_enclose _ _ _ _ _ Hb (toc_lag _ _ _ _ _ _ Ht)).
  pose proof (proj1 (lag_too_large_false _ _ _) Hl) as Hck.
  apply py_slice_wrapped_empty; rewrite ?(toc_y _ _ _ _ _ _ Ht); lia.
Qed.

Lemma x_window_len : len (x_window t) = n - (mx - Z.min mn 0).
Proof.
  destruct x_window_range as (H1 & H2 & H3).
  rewrite x_window_span, span_len; rewrite ?(toc_x _ _ _ _ _ _ Ht); lia.
Qed.

Lemma cond_window_len cs :
  t_cond t = Some cs → len (cond_window t cs) = n - (mx - Z.min mn 0).
Proof.
  intros Hc. destruct cond_window_range as (H1 & H2 & H3).
  rewrite (cond_window_span _ Hc), span_len;
    rewrite ?(toc_cond _ _ _ _ _ _ Ht _ Hc); lia.
Qed.

Lemma y_window_len : 0 ≤ mx → len (y_window t) = n - (mx - Z.min mn 0).
Proof.
  intros Hmx. pose proof (proj1 (lag_too_large_false _ _ _) Hl) as Hck.
  rewrite (y_window_span Hmx), span_len; rewrite ?(toc_y _ _ _ _ _ _ Ht); lia.
Qed.

End Checked.

End Windows.

(** ** The tasks of a call *)

Section Tasks.

Context {R : Type}.
Variable dflt : R.

(** Every task a successful [prepare] hands over is a task of the call, and
    the lag check has passed for the bounds it carries. *)
Lemma prepare_tasks (y : list R) x lag k cond c mask parallel (p : plan R)
    mn mx (t : task R) :
  prepare dflt y x lag k cond c mask parallel = Ok p →
  lag_bounds (as_lag_array lag) c = Ok (mn, mx) →
  t ∈ p_params p →
  lag_too_large (len y) mn mx = false ∧
  task_of_call (len y) (as_lag_array lag) c mn mx t ∧
  t_y t = y ∧ t_k t = k ∧ t_mask t = mask ∧ t_cond t = cond.
Proof.
  intros (Hchk & mn' & mx' & par & Hb & Hl & _ & ->)%prepare_ok Hb' Hin.
  rewrite Hb in Hb'. injection Hb' as -> ->. simpl in Hin.
  apply elem_of_params in Hin
    as (H1 & H2 & H3 & H4 & H5 & H6 & H7 & H8 & H9).
  apply check_parameters_ok in Hchk as (Hx & Hc & _ & _).
  split; [done|]. split; [|done].
  constructor; [done | congruence | by rewrite H3 | | done..].
  intros cs Hcs. apply Hc. congruence.
Qed.

End Tasks.

(** ** Filling the grid *)

Section Grid.

Context {R F : Type}.
Implicit Types (g : list (list (option F))) (ix : nat * nat).

Lemma np_empty_shape (n m : nat) : has_shape (np_empty (F:=F) n m) n m.
Proof.
  unfold np_empty. split; [apply length_replicate|].
  intros row [-> _]%elem_of_replicate. apply length_replicate.
Qed.

Lemma set_cell_ok g (n m : nat) ix (v : F) :
  has_shape g n m → (ix.1 < n)%nat → (ix.2 < m)%nat →
  ∃ g', set_cell g ix v = Ok g' ∧ has_shape g' n m ∧
        cell g' ix = Some (Some v) ∧
        ∀ ix', ix' ≠ ix → cell g' ix' = cell g ix'.
Proof.
  intros [Hn Hm] Hi Hj. destruct ix as [i j]; cbn [fst snd] in *.
  unfold set_cell; cbn [fst snd].
  destruct (lookup_lt_is_Some_2 g i) as [row Hrow]; [lia|].
  rewrite Hrow.
  assert (length row = m) as Hlen
    by (apply Hm; by eapply list_elem_of_lookup_2).
  destruct (decide (j < length row)%nat) as [_|]; [|lia].
  eexists. split; [done|]. split; [|split].
  - split; [by rewrite length_insert|].
    intros row' Hin. apply list_elem_of_lookup_1 in Hin as [i' Hi'].
    destruct (decide (i = i')) as [<-|Hne].
    + rewrite list_lookup_insert_eq in Hi' by lia.
      injection Hi' as <-. by rewrite length_insert.
    + rewrite list_lookup_insert_ne in Hi' by done.
      apply Hm. by eapply list_elem_of_lookup_2.
  - unfold cell; cbn [fst snd].
    rewrite list_lookup_insert_eq by lia. cbn [mbind option_bind].
    apply list_lookup_insert_eq. lia.
  - intros [i' j'] Hne. unfold cell; cbn [fst snd].
    destruct (decide (i = i')) as [<-|Hi'].
    + rewrite list_lookup_insert_eq by lia. rewrite Hrow.
      cbn [mbind option_bind].
      apply list_lookup_insert_ne. congruence.
    + by rewrite list_lookup_insert_ne.
Qed.

(** The loop that fills the grid, for results that depend on the index
    pair only: it fails with the first failure among the results, and
    otherwise assigns to every listed cell the result of its pair. *)
Lemma collect_spec (f : nat * nat → result F) (ixs : list (nat * nat))
    g (n m : nat) :
  has_shape g n m →
  (∀ ix, ix ∈ ixs → (ix.1 < n)%nat ∧ (ix.2 < m)%nat) →
  match collect g (map (λ ix, (ix, f ix)) ixs) with
  | Ok g' =>
      has_shape g' n m ∧
      (∀ ix, ix ∈ ixs → ∃ v, f ix = Ok v ∧ cell g' ix = Some (Some v)) ∧
      (∀ ix, ix ∉ ixs → cell g' ix = cell g ix)
  | Raise e => ∃ ix, ix ∈ ixs ∧ f ix = Raise e
  end.
Proof.
  revert g. induction ixs as [|ix ixs IH]; intros g Hg Hin; simpl.
  - split; [done|]. split; [|done]. intros ix Hix. by apply elem_of_nil in Hix.
  - destruct (f ix) as [v|e] eqn:Hf; simpl;
      [|exists ix; split; [apply list_elem_of_here | done]].
    destruct (Hin ix) as [Hi Hj]; [apply list_elem_of_here|].
    destruct (set_cell_ok g n m ix v Hg Hi Hj) as (g1 & -> & Hg1 & Hc1 & Ho1).
    simpl. specialize (IH g1 Hg1).
    destruct (collect g1 _) as [g'|e].
    + destruct IH as (Hs & Hset & Hother).
      { intros ix' Hix'. apply Hin. by apply list_elem_of_further. }
      split; [done|]. split.
      * intros ix' Hix'. destruct (decide (ix' ∈ ixs)) as [Hd|Hd].
        -- by apply Hset.
        -- apply elem_of_cons in Hix' as [->|?]; [|done].
           exists v. split; [done|]. by rewrite Hother.
      * intros ix' Hix'. apply not_elem_of_cons in Hix' as [Hne Hnin].
        rewrite Hother by done. by apply Ho1.
    + destruct IH as (ix' & Hix' & Hf').
      { intros ix' Hix'. apply Hin. by apply list_elem_of_further. }
      exists ix'. split; [by apply list_elem_of_further | done].
Qed.

Lemma zip_map_self {A B : Type} (h : A → B) (l : list A) :
  zip l (map h l) = map (λ a, (a, h a)) l.
Proof. induction l as [|a l IH]; simpl; [done | by rewrite IH]. Qed.

Variable _estimate_single_mi : list R → list R → Z → result F.
Variable _estimate_conditional_mi : list R → list R → list R → Z → result F.

Local Abbreviation lagged_mi := (_lagged_mi _estimate_single_mi _estimate_conditional_mi).
Local Abbreviation run_seq :=
  (run_sequential _estimate_single_mi _estimate_conditional_mi).

(** Running the tasks one by one while the grid is filled yields the same
    grid, or the same failure, as filling it from all their results. *)
Lemma run_sequential_collect g (ixs : list (nat * nat)) (ps : list (task R)) :
  (run_seq g (zip ixs ps)).2 = collect g (zip ixs (map lagged_mi ps)).
Proof.
  revert g ps. induction ixs as [|ix ixs IH]; intros g [|t ps]; simpl;
    try done.
  destruct (lagged_mi t) as [v|e]; simpl; [|done].
  destruct (set_cell g ix v) as [g'|e]; simpl; [|done].
  rewrite <- IH. by destruct (run_seq g' (zip ixs ps)).
Qed.

(** A sequential run that succeeds has run every task. *)
Lemma run_sequential_ran g (ixs : list (nat * nat)) (ps ran : list (task R)) g' :
  length ixs = length ps →
  run_seq g (zip ixs ps) = (ran, Ok g') → ran = ps.
Proof.
  revert g ps ran. induction ixs as [|ix ixs IH]; intros g [|t ps] ran;
    simpl; try done.
  - by intros _ [= <- _].
  - intros [= Hlen].
    destruct (lagged_mi t) as [v|e]; [|done].
    destruct (set_cell g ix v) as [g1|e]; [|done].
    destruct (run_seq g1 (zip ixs ps)) as [ran1 out] eqn:Hrun.
    intros [= <- ->]. f_equal. by eapply IH.
Qed.

(** Whatever happens, only tasks of the work list run, in its order. *)
Lemma run_sequential_prefix g (work : list ((nat * nat) * task R)) :
  (run_seq g work).1 `prefix_of` map snd work.
Proof.
  revert g. induction work as [|[ix t] work IH]; intros g; simpl.
  - done.
  - destruct (lagged_mi t) as [v|e];
      [|apply prefix_cons, prefix_nil].
    destruct (set_cell g ix v) as [g1|e];
      [|apply prefix_cons, prefix_nil].
    specialize (IH g1). destruct (run_seq g1 work) as [ran out].
    by apply prefix_cons.
Qed.

End Grid.

(** ** The call as a whole *)

Section Calls.

Context {R F : Type}.
Variable dflt : R.
Variable _estimate_single_mi : list R → list R → Z → result F.
Variable _estimate_conditional_mi : list R → list R → list R → Z → result F.
Variable executor_map : (task R → result F) → list (task R) → list (result F).

Local Abbreviation lagged_mi :=
  (_lagged_mi _estimate_single_mi _estimate_conditional_mi).
Local Abbreviation call :=
  (estimate_mi dflt _estimate_single_mi _estimate_conditional_mi executor_map).

Implicit Types (x : xarray R) (y : list R) (cond : option (list R))
  (mask : option mask_array) (lag : lag_arg) (k c : Z)
  (parallel : option string) (p : plan R).

(** A failure of the steps before the dispatch is the failure of the call,
    and no task has run. *)
Lemma estimate_mi_rejected y x lag k cond c mask parallel e :
  prepare dflt y x lag k cond c mask parallel = Raise e →
  call y x lag k cond c mask parallel = ([], Raise e).
Proof. intros H. unfold estimate_mi. by rewrite H. Qed.

Lemma estimate_mi_prepared y x lag k cond c mask parallel p :
  prepare dflt y x lag k cond c mask parallel = Ok p →
  call y x lag k cond c mask parallel
  = execute _estimate_single_mi _estimate_conditional_mi executor_map p.
Proof. intros H. unfold estimate_mi. by rewrite H. Qed.

(** The pool returns the result of every task, in the order of the tasks. *)
Hypothesis executor_map_ordered : ∀ f l, executor_map f l = map f l.

(** In both modes the outcome is the grid filled from the results of the
    tasks, taken in the order of [indices]. *)
Lemma execute_outcome p :
  (execute _estimate_single_mi _estimate_conditional_mi executor_map p).2
  = collect (np_empty (p_nlag p) (p_nvar p))
      (zip (p_indices p) (map lagged_mi (p_params p))).
Proof.
  unfold execute. destruct (p_parallel p); simpl.
  - by rewrite executor_map_ordered.
  - apply run_sequential_collect.
Qed.

Lemma execute_ran p ran g :
  length (p_indices p) = length (p_params p) →
  execute _estimate_single_mi _estimate_conditional_mi executor_map p
  = (ran, Ok g) →
  ran = p_params p.
Proof.
  unfold execute. destruct (p_parallel p).
  - by intros _ [= <- _].
  - intros Hlen Hrun. by eapply run_sequential_ran.
Qed.

(** The outcome of a call that reaches the dispatch, in terms of the lags
    and variables of the call. *)
Lemma estimate_mi_outcome y x lag k cond c mask parallel p mn mx :
  prepare dflt y x lag k cond c mask parallel = Ok p →
  lag_bounds (as_lag_array lag) c = Ok (mn, mx) →
  (call y x lag k cond c mask parallel).2
  = collect (np_empty (length (as_lag_array lag)) (x_nvar x))
      (map (λ ix, (ix, lagged_mi
                         (task_at dflt x y (as_lag_array lag) mx mn k
                                  mask cond c ix)))
           (indices (length (as_lag_array lag)) (x_nvar x))).
Proof.
  intros Hp Hb. rewrite (estimate_mi_prepared _ _ _ _ _ _ _ _ _ Hp).
  rewrite execute_outcome.
  apply prepare_ok in Hp as (_ & mn' & mx' & par & Hb' & _ & _ & ->).
  rewrite Hb in Hb'. injection Hb' as <- <-. simpl.
  rewrite params_by_index, map_map. f_equal.
  apply (zip_map_self
           (λ ix, lagged_mi
                    (task_at dflt x y (as_lag_array lag) mx mn k mask cond c ix))).
Qed.

Lemma prepare_lengths y x lag k cond c mask parallel p :
  prepare dflt y x lag k cond c mask parallel = Ok p →
  length (p_indices p) = length (p_params p).
Proof.
  intros (_ & mn & mx & par & _ & _ & _ & ->)%prepare_ok. simpl.
  by rewrite params_by_index, length_map.
Qed.

End Calls.

(** * Main results *)




(** C2, as the code has it.  For every call that passes the validator and
    the lag check and whose [max_lag] is not negative, and for every task,
    the windows of [x], of [y] and (when [cond] is present) of [cond] have
    the same length, [N - (max_lag - min(min_lag, 0))]; when moreover
    [min_lag ≤ 0] this is [N - (max_lag - min_lag)]. *)
Theorem window_lengths {R : Type} (dflt : R) (y : list R) (x : xarray R)
    (lag : lag_arg) (k : Z) (cond : option (list R)) (c : Z)
    (mask : option mask_array) (parallel : option string)
    (p : plan R) (mn mx : Z) (t : task R) :
  prepare dflt y x lag k cond c mask parallel = Ok p →
  lag_bounds (as_lag_array lag) c = Ok (mn, mx) →
  0 ≤ mx →
  t ∈ p_params p →
  len (x_window t) = len y - (mx - Z.min mn 0) ∧
  len (y_window t) = len y - (mx - Z.min mn 0) ∧
  (∀ cs, cond = Some cs →
         len (cond_window t cs) = len y - (mx - Z.min mn 0)) ∧
  (mn ≤ 0 → len y - (mx - Z.min mn 0) = len y - (mx - mn)).
Proof.
  intros Hp Hb Hmx Hin.
  destruct (prepare_tasks dflt _ _ _ _ _ _ _ _ _ _ _ _ Hp Hb Hin)
    as (Hl & Ht & _ & _ & _ & Hc).
  split; [exact (x_window_len _ _ _ _ _ _ Hb Hl Ht)|].
  split; [exact (y_window_len _ _ _ _ _ _ Hl Ht Hmx)|].
  split; [|lia].
  intros cs ->. exact (cond_window_len _ _ _ _ _ _ Hb Hl Ht _ Hc).
Qed.

Lemma window_lengths_witness :
  prepare 0 Sample.series Sample.matrix (LagSeq [0; 1; -1]) 1
    (Some Sample.series) 1 (Some Sample.some_mask) None
  = Ok Sample.plan3 ∧
  lag_bounds [0; 1; -1] 1 = Ok (-1, 2) ∧
  0 ≤ 2 ∧
  Sample.task3 ∈ p_params Sample.plan3 ∧
  len (x_window Sample.task3) = 5 - (2 - Z.min (-1) 0) ∧
  len (y_window Sample.task3) = 5 - (2 - Z.min (-1) 0) ∧
  len (cond_window Sample.task3 Sample.series) = 5 - (2 - Z.min (-1) 0).
Proof.
  assert (Sample.task3 ∈ p_params Sample.plan3) as Hin.
  { vm_compute. do 3 apply list_elem_of_further. apply list_elem_of_here. }
  assert (0 ≤ 2) as Hmx by lia.
  pose proof (window_lengths 0 Sample.series Sample.matrix
                (LagSeq [0; 1; -1]) 1 (Some Sample.series) 1
                (Some Sample.some_mask) None Sample.plan3 (-1) 2
                Sample.task3 eq_refl eq_refl Hmx Hin)
    as (Hx & Hy & Hc & _).
  split; [reflexivity|]. split; [reflexivity|]. split; [exact Hmx|].
  split; [exact Hin|]. split; [exact Hx|]. split; [exact Hy|].
  exact (Hc _ eq_refl).
Defined.

(** C2 as stated fails: for [y = x = [1,2,3,4,5]] and the single lag 1 the
    call passes the validator and the lag check with
    [min_lag = max_lag = 1], and the windows of its task have 4 elements,
    not [N - (max_lag - min_lag) = 5]. *)
Lemma window_length_formula_fails :
  prepare 0 Sample.series (X1d Sample.series) (LagInt 1) 1 None 0 None None
  = Ok (Plan 1 1 [(0, 0)%nat] [Sample.single 1] false) ∧
  lag_bounds [1] 0 = Ok (1, 1) ∧
  x_window (Sample.single 1) = [1; 2; 3; 4] ∧
  y_window (Sample.single 1) = [2; 3; 4; 5] ∧
  len (x_window (Sample.single 1)) ≠ len Sample.series - (1 - 1).
Proof. repeat split. vm_compute. discriminate. Qed.

(** C3.  What the code does for a single negative lag [l] (no [cond], no
    mask) once the call has passed the validator and the lag check: the one
    task has [max_lag = min_lag = l], its window of [x] is the whole of [x]
    (it begins at position 0 and has [N] elements), its window of [y] is
    empty, because the negative start [max_lag] counts from the end of [y],
    and these two are what the estimator receives.  The windows are not the
    two runs of [N - |l|] elements, [|l|] positions apart. *)
Theorem single_negative_lag_windows {R F : Type} (dflt : R)
    (est1 : list R → list R → Z → result F)
    (est2 : list R → list R → list R → Z → result F)
    (y v : list R) (l k : Z) (parallel : option string) (p : plan R) :
  prepare dflt y (X1d v) (LagInt l) k None 0 None parallel = Ok p →
  l < 0 →
  p_params p = [Task v y l l l k None None 0] ∧
  x_window (Task v y l l l k None None 0) = v ∧
  y_window (Task v y l l l k None None 0) = [] ∧
  _lagged_mi est1 est2 (Task v y l l l k None None 0) = est1 v [] k.
Proof.
  intros (Hchk & mn & mx & par & Hb & Hl & _ & ->)%prepare_ok Hneg.
  apply check_parameters_ok in Hchk as (Hx & _ & _ & _). simpl in Hx.
  simpl in Hb. injection Hb as <- <-.
  apply lag_too_large_false in Hl.
  replace (Z.min l (l + 0)) with l in * by lia.
  replace (Z.max l (l + 0)) with l in * by lia.
  assert (x_window (Task v y l l l k None None 0) = v) as Hxw.
  { unfold x_window. simpl.
    replace (l - l) with 0 by lia.
    replace (len v - l + Z.min l 0) with (len v) by lia.
    apply py_slice_whole. }
  assert (y_window (Task v y l l l k None None 0) = []) as Hyw.
  { unfold y_window. simpl. apply py_slice_wrapped_empty; lia. }
  split; [done|]. split; [done|]. split; [done|].
  unfold _lagged_mi, masked. simpl. by rewrite Hxw, Hyw.
Qed.

Lemma single_negative_lag_windows_witness :
  prepare 0 Sample.series (X1d Sample.series) (LagInt (-1)) 1 None 0 None None
  = Ok (Plan 1 1 [(0, 0)%nat] [Sample.single (-1)] false) ∧
  -1 < 0 ∧
  x_window (Sample.single (-1)) = [1; 2; 3; 4; 5] ∧
  y_window (Sample.single (-1)) = [] ∧
  _lagged_mi Sample.sizes1 Sample.sizes2 (Sample.single (-1))
  = Ok (5%nat, 0%nat, 0%nat).
Proof.
  assert (-1 < 0) as Hneg by lia.
  pose proof (single_negative_lag_windows 0 Sample.sizes1 Sample.sizes2
                Sample.series Sample.series (-1) 1 None
                (Plan 1 1 [(0, 0)%nat] [Sample.single (-1)] false)
                eq_refl Hneg)
    as (_ & Hx & Hy & Hrun).
  split; [reflexivity|]. split; [exact Hneg|].
  split; [exact Hx|]. split; [exact Hy | exact Hrun].
Defined.

Lemma flat_map_nth_seq {B : Type} (f : Z → list B) (l : list Z) :
  flat_map (λ i, f (nth i l 0)) (seq 0 (length l)) = flat_map f l.
Proof.
  rewrite !flat_map_concat_map. f_equal. symmetry. apply map_nth_seq.
Qed.

(** The tasks of a call, lag by lag and, for each lag, variable by
    variable. *)
Lemma params_lag_major {R : Type} (dflt : R) (x : xarray R) (y : list R)
    (lags : list Z) (mx mn k : Z) (mask : option mask_array)
    (cond : option (list R)) (c : Z) :
  params dflt x y lags mx mn k mask cond c
  = flat_map
      (λ l, map (λ j, Task (x_variable dflt x j) y l mx mn k mask cond c)
                (seq 0 (x_nvar x)))
      lags.
Proof.
  rewrite params_by_index, indices_lag_major. unfold task_at. simpl.
  apply (flat_map_nth_seq
           (λ l, map (λ j, Task (x_variable dflt x j) y l mx mn k mask cond c)
                     (seq 0 (x_nvar x)))).
Qed.

(** C4.  Provided the pool returns the results in the order of the tasks:
    whenever a call returns a grid, the grid has one row per lag and one
    cell per variable in every row ([nvar] is 1 for a series and the number
    of columns for a matrix), the cell of row [i] and column [j] holds the
    result of [_lagged_mi] on the task of lag [lag[i]] and variable [j], and
    the tasks that ran are the tasks of all lags in order and, within a
    lag, of all variables in order.  A call that passes the steps before
    the dispatch and whose tasks all succeed does return a grid. *)
Theorem grid_shape_and_cells {R F : Type} (dflt : R)
    (est1 : list R → list R → Z → result F)
    (est2 : list R → list R → list R → Z → result F)
    (pool : (task R → result F) → list (task R) → list (result F))
    (y : list R) (x : xarray R) (lag : lag_arg) (k : Z)
    (cond : option (list R)) (c : Z) (mask : option mask_array)
    (parallel : option string) :
  (∀ f l, pool f l = map f l) →
  (∀ ran g,
     estimate_mi dflt est1 est2 pool y x lag k cond c mask parallel
     = (ran, Ok g) →
     ∃ mn mx,
       lag_bounds (as_lag_array lag) c = Ok (mn, mx) ∧
       length g = length (as_lag_array lag) ∧
       (∀ row, row ∈ g → length row = x_nvar x) ∧
       (∀ (i j : nat) (l : Z),
          as_lag_array lag !! i = Some l → (j < x_nvar x)%nat →
          ∃ v, _lagged_mi est1 est2
                 (Task (x_variable dflt x j) y l mx mn k mask cond c) = Ok v ∧
               g !! i ≫= (λ row, row !! j) = Some (Some v)) ∧
       ran = flat_map
               (λ l, map (λ j, Task (x_variable dflt x j) y l mx mn k
                                    mask cond c)
                         (seq 0 (x_nvar x)))
               (as_lag_array lag)) ∧
  (∀ p,
     prepare dflt y x lag k cond c mask parallel = Ok p →
     (∀ t, t ∈ p_params p → is_ok (_lagged_mi est1 est2 t) = true) →
     ∃ g, (estimate_mi dflt est1 est2 pool y x lag k cond c mask parallel).2
          = Ok g).
Proof.
  intros Hpool. split.
  - intros ran g Hrun.
    destruct (prepare dflt y x lag k cond c mask parallel) as [p|e] eqn:Hp;
      [|by rewrite (estimate_mi_rejected _ _ _ _ _ _ _ _ _ _ _ _ _ Hp) in Hrun].
    pose proof Hp as (_ & mn & mx & par & Hb & _ & _ & Hpl)%prepare_ok.
    exists mn, mx. split; [done|].
    pose proof (estimate_mi_outcome dflt est1 est2 pool Hpool
                  _ _ _ _ _ _ _ _ _ _ _ Hp Hb) as Hout.
    rewrite Hrun in Hout. simpl in Hout.
    pose proof (collect_spec
                  (λ ix, _lagged_mi est1 est2
                           (task_at dflt x y (as_lag_array lag) mx mn k
                                    mask cond c ix))
                  (indices (length (as_lag_array lag)) (x_nvar x))
                  _ _ _
                  (np_empty_shape (length (as_lag_array lag)) (x_nvar x)))
      as Hspec.
    cbv beta in Hspec. rewrite <- Hout in Hspec.
    destruct Hspec as ([Hrows Hcols] & Hcells & _);
      [intros ix; apply elem_of_indices|].
    split; [done|]. split; [done|]. split.
    + intros i j l Hi Hj.
      destruct (Hcells (i, j)) as (v & Hv & Hcell).
      { apply elem_of_indices. split; [|done]. by eapply lookup_lt_Some. }
      exists v. split; [|done].
      unfold task_at in Hv. simpl in Hv.
      by rewrite (nth_lookup_Some _ _ _ _ Hi) in Hv.
    + rewrite (estimate_mi_prepared _ _ _ _ _ _ _ _ _ _ _ _ _ Hp) in Hrun.
      apply (execute_ran _ _ _) in Hrun;
        [|by eapply prepare_lengths].
      rewrite Hrun, Hpl. simpl. apply params_lag_major.
  - intros p Hp Hall.
    pose proof Hp as (_ & mn & mx & par & Hb & _ & _ & Hpl)%prepare_ok.
    rewrite (estimate_mi_outcome dflt est1 est2 pool Hpool
               _ _ _ _ _ _ _ _ _ _ _ Hp Hb).
    pose proof (collect_spec
                  (λ ix, _lagged_mi est1 est2
                           (task_at dflt x y (as_lag_array lag) mx mn k
                                    mask cond c ix))
                  (indices (length (as_lag_array lag)) (x_nvar x))
                  _ _ _
                  (np_empty_shape (length (as_lag_array lag)) (x_nvar x)))
      as Hspec.
    cbv beta in Hspec.
    destruct (collect _ _) as [g|e]; [by exists g|].
    destruct Hspec as (ix & Hix & Hfail);
      [intros ix; apply elem_of_indices|].
    specialize (Hall (task_at dflt x y (as_lag_array lag) mx mn k
                              mask cond c ix)).
    rewrite Hfail in Hall. simpl in Hall.
    discriminate Hall.
    rewrite Hpl. simpl. rewrite params_by_index.
    apply list_elem_of_fmap. by exists ix.
Qed.

Lemma grid_shape_and_cells_witness :
  (∀ (f : task Z → result (nat * nat * nat)) l, Sample.pool f l = map f l) ∧
  ∃ ran g,
    Sample.run Sample.series Sample.matrix (LagSeq [0; 1; -1]) 1
      (Some Sample.series) 1 (Some Sample.some_mask) (Some "always"%string)
    = (ran, Ok g) ∧
    length g = 3%nat ∧
    (∀ row, row ∈ g → length row = 2%nat) ∧
    g !! 1%nat ≫= (λ row, row !! 1%nat) = Some (Some (1%nat, 1%nat, 1%nat)).
Proof.
  assert (∀ (f : task Z → result (nat * nat * nat)) l,
            Sample.pool f l = map f l) as Hpool by reflexivity.
  split; [exact Hpool|].
  assert (∃ ran g,
            Sample.run Sample.series Sample.matrix (LagSeq [0; 1; -1]) 1
              (Some Sample.series) 1 (Some Sample.some_mask)
              (Some "always"%string)
            = (ran, Ok g)) as (ran & g & Hrun)
    by (vm_compute; eauto).
  destruct (proj1 (grid_shape_and_cells 0 Sample.sizes1 Sample.sizes2
                     Sample.pool Sample.series Sample.matrix
                     (LagSeq [0; 1; -1]) 1 (Some Sample.series) 1
                     (Some Sample.some_mask) (Some "always"%string) Hpool)
                  ran g Hrun)
    as (mn & mx & Hb & Hlen & Hrows & Hcells & _).
  injection Hb as <- <-.
  exists ran, g. split; [exact Hrun|]. split; [exact Hlen|].
  split; [exact Hrows|].
  destruct (Hcells 1%nat 1%nat 1 eq_refl) as (v & Hv & Hcell);
    [simpl; lia|].
  injection Hv as <-. exact Hcell.
Defined.

(** ** Failures before the dispatch *)

Section Rejections.

Context {R F : Type}.
Variable dflt : R.
Variable est1 : list R → list R → Z → result F.
Variable est2 : list R → list R → list R → Z → result F.
Variable pool : (task R → result F) → list (task R) → list (result F).

Implicit Types (x : xarray R) (y : list R) (cond : option (list R))
  (mask : option mask_array) (lag : lag_arg) (k c : Z)
  (parallel : option string) (p : plan R).

Lemma prepare_check_failed y x lag k cond c mask parallel e :
  _check_parameters x y k cond mask = Raise e →
  prepare dflt y x lag k cond c mask parallel = Raise e.
Proof. intros H. unfold prepare. by rewrite H. Qed.

Lemma prepare_lag_failed y x lag k cond c mask parallel mn mx :
  _check_parameters x y k cond mask = Ok tt →
  lag_bounds (as_lag_array lag) c = Ok (mn, mx) →
  lag_too_large (len y) mn mx = true →
  prepare dflt y x lag k cond c mask parallel
  = Raise (ValueError "lag is too large, no observations left").
Proof. intros H1 H2 H3. unfold prepare. rewrite H1; simpl. rewrite H2; simpl. by rewrite H3. Qed.

Lemma prepare_dispatch_failed y x lag k cond c mask parallel mn mx e :
  _check_parameters x y k cond mask = Ok tt →
  lag_bounds (as_lag_array lag) c = Ok (mn, mx) →
  lag_too_large (len y) mn mx = false →
  _should_be_parallel parallel
    (indices (length (as_lag_array lag)) (x_nvar x)) y = Raise e →
  prepare dflt y x lag k cond c mask parallel = Raise e.
Proof.
  intros H1 H2 H3 H4. unfold prepare. rewrite H1; simpl. rewrite H2; simpl.
  rewrite H3. by rewrite H4.
Qed.

(** Once the dispatch is reached, a call that fails has run a task. *)
Lemma execute_failure_ran p e :
  length (p_indices p) = length (p_params p) →
  execute est1 est2 pool p ≠ ([], Raise e).
Proof.
  unfold execute. intros Hlen. destruct (p_parallel p).
  - intros [= Hps Hc]. rewrite Hps in Hlen.
    destruct (p_indices p); [done | discriminate Hlen].
  - destruct (p_indices p) as [|ix ixs], (p_params p) as [|t ps];
      try done. simpl.
    destruct (_lagged_mi est1 est2 t) as [v|e']; [|done].
    destruct (set_cell _ ix v) as [g|e']; [|done].
    by destruct (run_sequential est1 est2 g (zip ixs ps)).
Qed.

End Rejections.

Lemma should_be_parallel_unrecognized {I A : Type} (s : string)
    (ixs : list I) (y : list A) :
  s ≠ "always"%string → s ≠ "disable"%string →
  _should_be_parallel (Some s) ixs y
  = Raise (ValueError "unrecognized value for parallel argument").
Proof.
  intros H1%String.eqb_neq H2%String.eqb_neq.
  unfold _should_be_parallel. by rewrite H1, H2.
Qed.

(** C5.  [_check_parameters] raises exactly when the first dimension of
    [x] differs from the length of [y], or [cond] is given with a length
    other than that of [y], or the number of observations is at most [k],
    or a mask is given whose length differs from that of [y] or whose
    dtype is not boolean.  It is a function of its arguments alone and its
    only successful value is the unit; when it raises, [estimate_mi] fails
    with the same exception and no task has run. *)
Theorem check_parameters_raises_iff {R F : Type} (dflt : R)
    (est1 : list R → list R → Z → result F)
    (est2 : list R → list R → list R → Z → result F)
    (pool : (task R → result F) → list (task R) → list (result F))
    (y : list R) (x : xarray R) (k : Z)
    (cond : option (list R)) (mask : option mask_array) :
  ((∃ e, _check_parameters x y k cond mask = Raise e) ↔
   x_shape0 x ≠ len y ∨
   (∃ cs, cond = Some cs ∧ len cs ≠ len y) ∨
   x_shape0 x ≤ k ∨
   (∃ m, mask = Some m ∧
         (mask_len m ≠ len y ∨ mask_dtype_is_bool m = false))) ∧
  ((∃ e, _check_parameters x y k cond mask = Raise e) ∨
   _check_parameters x y k cond mask = Ok tt) ∧
  (∀ e lag c parallel,
     _check_parameters x y k cond mask = Raise e →
     estimate_mi dflt est1 est2 pool y x lag k cond c mask parallel
     = ([], Raise e)).
Proof.
  split; [|split].
  - destruct (result_unit_cases (_check_parameters x y k cond mask))
      as [Hok|[e He]].
    + split; [intros [e He]; congruence|].
      apply check_parameters_ok in Hok as (H1 & H2 & H3 & H4).
      intros [?|[(cs & Hc & ?)|[?|(m & Hm & Hbad)]]]; try lia.
      * specialize (H2 cs Hc). lia.
      * destruct (H4 m Hm) as [? ?]. destruct Hbad; [lia | congruence].
    + split; [|by eauto]. intros _.
      destruct (decide (x_shape0 x = len y)) as [H1|]; [|by left].
      destruct (decide (x_shape0 x ≤ k)) as [|H3]; [by right; right; left|].
      assert ((∃ cs, cond = Some cs ∧ len cs ≠ len y) ∨
              ¬ (∃ cs, cond = Some cs ∧ len cs ≠ len y)) as [|H2];
        [|by right; left|].
      { destruct cond as [cs|]; [|right; by intros (? & ? & _)].
        destruct (decide (len cs = len y)); [right | left; by exists cs].
        intros (? & [= <-] & ?). done. }
      assert ((∃ m, mask = Some m ∧
                    (mask_len m ≠ len y ∨ mask_dtype_is_bool m = false)) ∨
              ¬ (∃ m, mask = Some m ∧
                      (mask_len m ≠ len y ∨ mask_dtype_is_bool m = false)))
        as [|H4]; [|by do 3 right|].
      { destruct mask as [m|]; [|right; by intros (? & ? & _)].
        destruct (decide (mask_len m = len y));
          [|left; exists m; by eauto].
        destruct (mask_dtype_is_bool m) eqn:Hd;
          [right | left; exists m; by eauto].
        intros (? & [= <-] & [?|?]); [done | congruence]. }
      assert (_check_parameters x y k cond mask = Ok tt) as Hok;
        [|congruence].
      apply check_parameters_ok.
      split; [done|]. split; [|split; [lia|]].
      * intros cs ->. destruct (decide (len cs = len y)); [done|].
        destruct H2. by exists cs.
      * intros m ->.
        destruct (decide (mask_len m = len y)) as [|Hm];
          [|destruct H4; exists m; by eauto].
        split; [done|].
        destruct (mask_dtype_is_bool m) eqn:Hd; [done|].
        destruct H4. exists m. by eauto.
  - destruct (result_unit_cases (_check_parameters x y k cond mask));
      [by right | by left].
  - intros e lag c parallel He.
    apply estimate_mi_rejected. by apply prepare_check_failed.
Qed.

(** C6.  [min_lag] is the least and [max_lag] the greatest among all lags
    and all lags plus [cond_lag].  Unless [max_lag - min_lag < N],
    [max_lag < N] and [min_lag > -N] all hold, the call fails and no task
    has run; for a call that passes the validator, failing with
    ["lag is too large, no observations left"] before any task is
    equivalent to the violation of one of the three.  In particular a lag
    of magnitude [N] or more makes the call fail with no task run. *)
Theorem lag_range_rejection {R F : Type} (dflt : R)
    (est1 : list R → list R → Z → result F)
    (est2 : list R → list R → list R → Z → result F)
    (pool : (task R → result F) → list (task R) → list (result F))
    (y : list R) (x : xarray R) (lag : lag_arg) (k : Z)
    (cond : option (list R)) (c : Z) (mask : option mask_array)
    (parallel : option string) (mn mx : Z) :
  lag_bounds (as_lag_array lag) c = Ok (mn, mx) →
  (∃ lo hi, extremes (as_lag_array lag) lo hi ∧
            mn = Z.min lo (lo + c) ∧ mx = Z.max hi (hi + c)) ∧
  (¬ (mx - mn < len y ∧ mx < len y ∧ mn > - len y) →
   ∃ e, estimate_mi dflt est1 est2 pool y x lag k cond c mask parallel
        = ([], Raise e)) ∧
  (_check_parameters x y k cond mask = Ok tt →
   (estimate_mi dflt est1 est2 pool y x lag k cond c mask parallel
    = ([], Raise (ValueError "lag is too large, no observations left")) ↔
    ¬ (mx - mn < len y ∧ mx < len y ∧ mn > - len y))) ∧
  (∀ l, l ∈ as_lag_array lag → len y ≤ Z.abs l →
        ∃ e, estimate_mi dflt est1 est2 pool y x lag k cond c mask parallel
             = ([], Raise e)).
Proof.
  intros Hb.
  assert (lag_too_large (len y) mn mx = true →
          ∃ e, estimate_mi dflt est1 est2 pool y x lag k cond c mask parallel
               = ([], Raise e)) as Hrej.
  { intros Hl.
    destruct (result_unit_cases (_check_parameters x y k cond mask))
      as [Hok|[e He]].
    - eexists. apply estimate_mi_rejected. by eapply prepare_lag_failed.
    - exists e. apply estimate_mi_rejected. by apply prepare_check_failed. }
  split; [by apply lag_bounds_ok|]. split; [|split].
  - intros Hbad. by apply Hrej, lag_too_large_true.
  - intros Hok. rewrite <- lag_too_large_true. split.
    + intros Hrun. destruct (lag_too_large (len y) mn mx) eqn:Hl; [done|].
      exfalso.
      destruct (_should_be_parallel parallel
                  (indices (length (as_lag_array lag)) (x_nvar x)) y)
        as [par|e] eqn:Hpar.
      * assert (prepare dflt y x lag k cond c mask parallel
                = Ok (Plan (length (as_lag_array lag)) (x_nvar x)
                        (indices (length (as_lag_array lag)) (x_nvar x))
                        (params dflt x y (as_lag_array lag) mx mn k
                                mask cond c) par)) as Hp.
        { apply prepare_ok. split; [done|]. by exists mn, mx, par. }
        rewrite (estimate_mi_prepared _ _ _ _ _ _ _ _ _ _ _ _ _ Hp) in Hrun.
        by eapply execute_failure_ran, Hrun; eapply prepare_lengths.
      * rewrite (estimate_mi_rejected _ _ _ _ _ _ _ _ _ _ _ _ _
                   (prepare_dispatch_failed dflt _ _ _ _ _ _ _ _ _ _ _
                      Hok Hb Hl Hpar)) in Hrun.
        injection Hrun as ->.
        destruct parallel as [s|]; [|done]. simpl in Hpar.
        destruct (String.eqb s "always"); [done|].
        destruct (String.eqb s "disable"); [done|]. discriminate Hpar.
    + intros Hl. apply estimate_mi_rejected. by eapply prepare_lag_failed.
  - intros l Hl Habs. apply Hrej, lag_too_large_true.
    destruct (bounds_enclose _ _ _ _ _ Hb Hl). lia.
Qed.

Lemma lag_range_rejection_witness :
  lag_bounds [0; 5] 0 = Ok (0, 5) ∧
  Sample.run Sample.series (X1d Sample.series) (LagSeq [0; 5]) 1 None 0
    None None
  = ([], Raise (ValueError "lag is too large, no observations left")).
Proof.
  pose proof (lag_range_rejection 0 Sample.sizes1 Sample.sizes2 Sample.pool
                Sample.series (X1d Sample.series) (LagSeq [0; 5]) 1 None 0
                None None 0 5 eq_refl)
    as (_ & _ & Hiff & _).
  split; [reflexivity|].
  apply (Hiff eq_refl). vm_compute. intros (_ & H & _). discriminate H.
Defined.

(** C7.  [_should_be_parallel] answers parallel for ["always"], sequential
    for ["disable"], raises ["unrecognized value for parallel argument"]
    for any other string, and for [None] answers parallel exactly when
    there is more than one index pair and [y] has more than 200 elements.
    In a call the decision is taken on the enumerated index pairs, of which
    there is one per task, and decides between the pool and the in-process
    loop; an unrecognized value makes the call fail with no task run, with
    the dispatch error if the validator and the lag check have passed. *)
Theorem dispatch_decision {R F : Type} (dflt : R)
    (est1 : list R → list R → Z → result F)
    (est2 : list R → list R → list R → Z → result F)
    (pool : (task R → result F) → list (task R) → list (result F))
    (y : list R) (x : xarray R) (lag : lag_arg) (k : Z)
    (cond : option (list R)) (c : Z) (mask : option mask_array)
    (ixs : list (nat * nat)) :
  _should_be_parallel (Some "always"%string) ixs y = Ok true ∧
  _should_be_parallel (Some "disable"%string) ixs y = Ok false ∧
  (∀ s, s ≠ "always"%string → s ≠ "disable"%string →
        _should_be_parallel (Some s) ixs y
        = Raise (ValueError "unrecognized value for parallel argument")) ∧
  (∃ par, _should_be_parallel None ixs y = Ok par ∧
          (par = true ↔ (1 < length ixs)%nat ∧ (200 < length y)%nat)) ∧
  (∀ parallel p,
     prepare dflt y x lag k cond c mask parallel = Ok p →
     _should_be_parallel parallel (p_indices p) y = Ok (p_parallel p) ∧
     length (p_indices p) = length (p_params p) ∧
     estimate_mi dflt est1 est2 pool y x lag k cond c mask parallel
     = if p_parallel p
       then (p_params p,
             collect (np_empty (p_nlag p) (p_nvar p))
               (zip (p_indices p)
                    (pool (_lagged_mi est1 est2) (p_params p))))
       else run_sequential est1 est2 (np_empty (p_nlag p) (p_nvar p))
              (zip (p_indices p) (p_params p))) ∧
  (∀ s, s ≠ "always"%string → s ≠ "disable"%string →
        ∃ e, estimate_mi dflt est1 est2 pool y x lag k cond c mask (Some s)
             = ([], Raise e) ∧
             (∀ mn mx,
                _check_parameters x y k cond mask = Ok tt →
                lag_bounds (as_lag_array lag) c = Ok (mn, mx) →
                lag_too_large (len y) mn mx = false →
                e = ValueError "unrecognized value for parallel argument")).
Proof.
  split; [done|]. split; [done|].
  split; [intros s H1 H2; by apply should_be_parallel_unrecognized|].
  split; [|split].
  - eexists. split; [done|]. unfold len.
    rewrite andb_true_iff, !Z.gtb_ltb, !Z.ltb_lt. lia.
  - intros parallel p Hp.
    rewrite (estimate_mi_prepared _ _ _ _ _ _ _ _ _ _ _ _ _ Hp).
    split; [|split; [by eapply prepare_lengths | done]].
    by apply prepare_ok in Hp as (_ & mn & mx & par & _ & _ & Hpar & ->).
  - intros s H1 H2.
    destruct (prepare dflt y x lag k cond c mask (Some s)) as [p|e] eqn:Hp.
    { apply prepare_ok in Hp as (_ & mn & mx & par & _ & _ & Hpar & _).
      by rewrite should_be_parallel_unrecognized in Hpar. }
    exists e. split; [by apply estimate_mi_rejected|].
    intros mn mx Hok Hb Hl.
    rewrite (prepare_dispatch_failed dflt _ _ _ _ _ _ _ _ _ _ _ Hok Hb Hl
               (should_be_parallel_unrecognized s _ _ H1 H2)) in Hp.
    by injection Hp as <-.
Qed.

(** C9.  Provided the pool returns the results in the order of the tasks,
    [parallel="always"] and [parallel="disable"] give the same outcome, a
    grid or a failure; the two modes apply the same function
    [_lagged_mi] to the same tasks and fill the grid from the same list of
    index pairs, and when the call succeeds the same tasks have run. *)
Theorem parallel_equals_sequential {R F : Type} (dflt : R)
    (est1 : list R → list R → Z → result F)
    (est2 : list R → list R → list R → Z → result F)
    (pool : (task R → result F) → list (task R) → list (result F))
    (y : list R) (x : xarray R) (lag : lag_arg) (k : Z)
    (cond : option (list R)) (c : Z) (mask : option mask_array) :
  (∀ f l, pool f l = map f l) →
  (estimate_mi dflt est1 est2 pool y x lag k cond c mask
     (Some "always"%string)).2
  = (estimate_mi dflt est1 est2 pool y x lag k cond c mask
       (Some "disable"%string)).2 ∧
  (∀ pa pd,
     prepare dflt y x lag k cond c mask (Some "always"%string) = Ok pa →
     prepare dflt y x lag k cond c mask (Some "disable"%string) = Ok pd →
     p_indices pa = p_indices pd ∧ p_params pa = p_params pd ∧
     p_parallel pa = true ∧ p_parallel pd = false) ∧
  (∀ ran g,
     estimate_mi dflt est1 est2 pool y x lag k cond c mask
       (Some "always"%string) = (ran, Ok g) →
     estimate_mi dflt est1 est2 pool y x lag k cond c mask
       (Some "disable"%string) = (ran, Ok g)).
Proof.
  intros Hpool.
  assert (∀ pa pd,
     prepare dflt y x lag k cond c mask (Some "always"%string) = Ok pa →
     prepare dflt y x lag k cond c mask (Some "disable"%string) = Ok pd →
     p_nlag pa = p_nlag pd ∧ p_nvar pa = p_nvar pd ∧
     p_indices pa = p_indices pd ∧ p_params pa = p_params pd ∧
     p_parallel pa = true ∧ p_parallel pd = false) as Hsame.
  { intros pa pd (_ & mn & mx & par & Hb & _ & Hpar & ->)%prepare_ok
                 (_ & mn' & mx' & par' & Hb' & _ & Hpar' & ->)%prepare_ok.
    rewrite Hb in Hb'. injection Hb' as <- <-.
    injection Hpar as <-. injection Hpar' as <-. done. }
  assert ((∃ e, prepare dflt y x lag k cond c mask (Some "always"%string)
                = Raise e ∧
                prepare dflt y x lag k cond c mask (Some "disable"%string)
                = Raise e) ∨
          (∃ pa pd,
             prepare dflt y x lag k cond c mask (Some "always"%string)
             = Ok pa ∧
             prepare dflt y x lag k cond c mask (Some "disable"%string)
             = Ok pd)) as Hcases.
  { unfold prepare.
    destruct (_check_parameters x y k cond mask) as [[]|e]; simpl;
      [|left; by exists e].
    destruct (lag_bounds (as_lag_array lag) c) as [[mn mx]|e]; simpl;
      [|left; by exists e].
    destruct (lag_too_large (len y) mn mx); [left; by eexists|].
    right. by eexists _, _. }
  assert ((estimate_mi dflt est1 est2 pool y x lag k cond c mask
             (Some "always"%string)).2
          = (estimate_mi dflt est1 est2 pool y x lag k cond c mask
               (Some "disable"%string)).2) as Hout.
  { destruct Hcases as [(e & Ha & Hd)|(pa & pd & Ha & Hd)].
    - by rewrite !(estimate_mi_rejected _ _ _ _ _ _ _ _ _ _ _ _ _ Ha),
                 !(estimate_mi_rejected _ _ _ _ _ _ _ _ _ _ _ _ _ Hd).
    - rewrite (estimate_mi_prepared _ _ _ _ _ _ _ _ _ _ _ _ _ Ha),
              (estimate_mi_prepared _ _ _ _ _ _ _ _ _ _ _ _ _ Hd).
      rewrite !(execute_outcome _ _ _ Hpool).
      destruct (Hsame _ _ Ha Hd) as (-> & -> & -> & -> & _). done. }
  split; [done|]. split.
  - intros pa pd Ha Hd. by destruct (Hsame _ _ Ha Hd) as (_ & _ & ?).
  - intros ran g Hrun. rewrite Hrun in Hout. simpl in Hout.
    destruct Hcases as [(e & Ha & Hd)|(pa & pd & Ha & Hd)].
    { by rewrite (estimate_mi_rejected _ _ _ _ _ _ _ _ _ _ _ _ _ Ha) in Hrun. }
    rewrite (estimate_mi_prepared _ _ _ _ _ _ _ _ _ _ _ _ _ Ha) in Hrun.
    apply (execute_ran _ _ _) in Hrun; [|by eapply prepare_lengths].
    destruct (estimate_mi dflt est1 est2 pool y x lag k cond c mask
                (Some "disable"%string)) as [ran' out] eqn:Hrun'.
    simpl in Hout. subst out.
    rewrite (estimate_mi_prepared _ _ _ _ _ _ _ _ _ _ _ _ _ Hd) in Hrun'.
    apply (execute_ran _ _ _) in Hrun'; [|by eapply prepare_lengths].
    destruct (Hsame _ _ Ha Hd) as (_ & _ & _ & Hps & _). congruence.
Qed.

Lemma parallel_equals_sequential_witness :
  (∀ (f : task Z → result (nat * nat * nat)) l, Sample.pool f l = map f l) ∧
  (Sample.run Sample.series Sample.matrix (LagSeq [0; 1; -1]) 1
     (Some Sample.series) 1 (Some Sample.some_mask)
     (Some "always"%string)).2
  = (Sample.run Sample.series Sample.matrix (LagSeq [0; 1; -1]) 1
       (Some Sample.series) 1 (Some Sample.some_mask)
       (Some "disable"%string)).2.
Proof.
  assert (∀ (f : task Z → result (nat * nat * nat)) l,
            Sample.pool f l = map f l) as Hpool by reflexivity.
  split; [exact Hpool|].
  exact (proj1 (parallel_equals_sequential 0 Sample.sizes1 Sample.sizes2
                  Sample.pool Sample.series Sample.matrix
                  (LagSeq [0; 1; -1]) 1 (Some Sample.series) 1
                  (Some Sample.some_mask) Hpool)).
Defined.

(** ** A mask that keeps every observation *)

Section AllTrue.

Context {R F : Type}.
Variable dflt : R.
Variable est1 : list R → list R → Z → result F.
Variable est2 : list R → list R → list R → Z → result F.
Variable pool : (task R → result F) → list (task R) → list (result F).
Hypothesis pool_ordered : ∀ f l, pool f l = map f l.

Implicit Types (x : xarray R) (y : list R) (cond : option (list R))
  (lag : lag_arg) (k c : Z) (parallel : option string).

Lemma check_parameters_keep_all x y k cond :
  _check_parameters x y k cond (Some (keep_all y))
  = _check_parameters x y k cond None.
Proof.
  assert (mask_len (keep_all y) = len y) as Hlen.
  { unfold keep_all, mask_len, len. by rewrite length_replicate. }
  unfold _check_parameters. rewrite Hlen, Z.eqb_refl. done.
Qed.

(** Where the window of [y] does not wrap, the window of the mask is all
    [True] and as long as every window of the task: masking changes
    nothing. *)
Lemma lagged_mi_keep_all x y (lags : list Z) mx mn k cond c (ix : nat * nat) :
  x_shape0 x = len y →
  (∀ cs, cond = Some cs → len cs = len y) →
  lag_bounds lags c = Ok (mn, mx) →
  lag_too_large (len y) mn mx = false →
  0 ≤ mx →
  (ix.1 < length lags)%nat →
  _lagged_mi est1 est2
    (task_at dflt x y lags mx mn k (Some (keep_all y)) cond c ix)
  = _lagged_mi est1 est2 (task_at dflt x y lags mx mn k None cond c ix).
Proof.
  intros Hx Hc Hb Hl Hmx Hi.
  set (t := task_at dflt x y lags mx mn k None cond c ix).
  assert (task_of_call (len y) lags c mn mx t) as Ht.
  { constructor; simpl; try done.
    - by apply list_elem_of_In, nth_In.
    - by rewrite x_variable_len. }
  pose proof (proj1 (lag_too_large_false _ _ _) Hl) as Hck.
  pose proof (x_window_len _ _ _ _ _ _ Hb Hl Ht) as Hxl.
  pose proof (y_window_len _ _ _ _ _ _ Hl Ht Hmx) as Hyl.
  set (t' := task_at dflt x y lags mx mn k (Some (keep_all y)) cond c ix).
  assert (∀ a : list R,
            len a = len y - (mx - Z.min mn 0) → masked t' a = Ok a) as Hkeep.
  { intros a Ha.
    change (masked t' a)
      with (nd_index a (mask_slice (keep_all y) mx (len y + Z.min mn 0))).
    unfold keep_all, mask_slice.
    rewrite py_slice_replicate by (unfold len in *; lia).
    apply nd_index_all_true. unfold len in *. lia. }
  unfold _lagged_mi.
  change (x_window t') with (x_window t).
  change (y_window t') with (y_window t).
  change (t_cond t') with cond. change (t_cond t) with cond.
  rewrite (Hkeep _ Hxl), (Hkeep _ Hyl).
  destruct cond as [cs|]; [|done].
  change (cond_window t' cs) with (cond_window t cs).
  by rewrite (Hkeep _ (cond_window_len _ _ _ _ _ _ Hb Hl Ht cs eq_refl)).
Qed.

(** For a call whose [max_lag] is not negative, the mask that keeps every
    observation gives the outcome of the call without a mask. *)
Lemma keep_all_same_outcome y x lag k cond c parallel mn mx :
  lag_bounds (as_lag_array lag) c = Ok (mn, mx) →
  0 ≤ mx →
  (estimate_mi dflt est1 est2 pool y x lag k cond c
     (Some (keep_all y)) parallel).2
  = (estimate_mi dflt est1 est2 pool y x lag k cond c None parallel).2.
Proof.
  intros Hb Hmx.
  destruct (prepare dflt y x lag k cond c None parallel) as [p|e] eqn:Hp.
  - pose proof Hp as (Hok & mn' & mx' & par & Hb' & Hl & Hpar & _)%prepare_ok.
    rewrite Hb in Hb'. injection Hb' as <- <-.
    assert (prepare dflt y x lag k cond c (Some (keep_all y)) parallel
            = Ok (Plan (length (as_lag_array lag)) (x_nvar x)
                    (indices (length (as_lag_array lag)) (x_nvar x))
                    (params dflt x y (as_lag_array lag) mx mn k
                            (Some (keep_all y)) cond c) par)) as Hp'.
    { apply prepare_ok. rewrite check_parameters_keep_all.
      split; [done|]. by exists mn, mx, par. }
    rewrite (estimate_mi_outcome _ _ _ _ pool_ordered
               _ _ _ _ _ _ _ _ _ _ _ Hp Hb),
            (estimate_mi_outcome _ _ _ _ pool_ordered
               _ _ _ _ _ _ _ _ _ _ _ Hp' Hb).
    f_equal. apply map_ext_in. intros ix Hix%list_elem_of_In.
    apply elem_of_indices in Hix as [Hi _].
    apply check_parameters_ok in Hok as (Hx & Hc & _ & _).
    f_equal. by apply lagged_mi_keep_all.
  - assert (prepare dflt y x lag k cond c (Some (keep_all y)) parallel
            = Raise e) as Hp'.
    { unfold prepare in *. rewrite check_parameters_keep_all.
      destruct (_check_parameters x y k cond None); simpl in *; [|done].
      rewrite Hb in *. simpl in *.
      destruct (lag_too_large (len y) mn mx); [done|].
      by destruct (_should_be_parallel parallel _ y). }
    by rewrite (estimate_mi_rejected _ _ _ _ _ _ _ _ _ _ _ _ _ Hp),
               (estimate_mi_rejected _ _ _ _ _ _ _ _ _ _ _ _ _ Hp').
Qed.

End AllTrue.

(** C8.  What the code does with the mask of five [True] for
    [y = x = [1,2,3,4,5]] and the single lag [-1]: the window of the mask
    is empty like that of [y], an empty boolean index selects nothing from
    the five elements of the window of [x], and the estimator receives an
    empty [x] and an empty [y].  Without the mask the same call hands the
    estimator the five elements of [x] and an empty [y].  The two calls
    give the estimator different observations, and for an estimator that
    reports the number of observations it is given they return different
    grids. *)
Theorem keep_all_negative_lag {F : Type}
    (est1 : list Z → list Z → Z → result F)
    (est2 : list Z → list Z → list Z → Z → result F)
    (pool : (task Z → result F) → list (task Z) → list (result F)) :
  estimate_mi 0 est1 est2 pool [1; 2; 3; 4; 5] (X1d [1; 2; 3; 4; 5])
    (LagInt (-1)) 1 None 0
    (Some (BoolArray [true; true; true; true; true])) None
  = ([Task [1; 2; 3; 4; 5] [1; 2; 3; 4; 5] (-1) (-1) (-1) 1
        (Some (BoolArray [true; true; true; true; true])) None 0],
     match est1 [] [] 1 with
     | Ok v => Ok [[Some v]]
     | Raise e => Raise e
     end) ∧
  estimate_mi 0 est1 est2 pool [1; 2; 3; 4; 5] (X1d [1; 2; 3; 4; 5])
    (LagInt (-1)) 1 None 0 None None
  = ([Task [1; 2; 3; 4; 5] [1; 2; 3; 4; 5] (-1) (-1) (-1) 1 None None 0],
     match est1 [1; 2; 3; 4; 5] [] 1 with
     | Ok v => Ok [[Some v]]
     | Raise e => Raise e
     end) ∧
  (Sample.run [1; 2; 3; 4; 5] (X1d [1; 2; 3; 4; 5]) (LagInt (-1)) 1 None 0
     (Some (BoolArray [true; true; true; true; true])) None).2
  = Ok [[Some (0%nat, 0%nat, 0%nat)]] ∧
  (Sample.run [1; 2; 3; 4; 5] (X1d [1; 2; 3; 4; 5]) (LagInt (-1)) 1 None 0
     None None).2
  = Ok [[Some (5%nat, 0%nat, 0%nat)]].
Proof.
  split; [vm_compute; by destruct (est1 _ _ _)|].
  split; [vm_compute; by destruct (est1 _ _ _)|].
  split; reflexivity.
Qed.

Lemma lag_bounds_zero (lags : list Z) (lo hi : Z) :
  lags ≠ [] → extremes lags lo hi → lag_bounds lags 0 = Ok (lo, hi).
Proof.
  intros Hne Hext.
  destruct (lag_bounds_nonempty lags 0 Hne) as (mn & mx & Hb).
  rewrite Hb. f_equal.
  apply lag_bounds_ok in Hb as (lo' & hi' & Hext' & -> & ->).
  destruct (extremes_unique _ _ _ _ _ Hext Hext') as [-> ->].
  f_equal; lia.
Qed.

(** C10, as the code has it.  Without [cond], [cond_lag] still enters
    [min_lag] and [max_lag], which are the least lag or the least lag plus
    [cond_lag], and the greatest lag or the greatest lag plus [cond_lag],
    and every task carries these bounds.  A call that passes with
    [cond_lag] also passes with [cond_lag = 0], so the lag check with
    [cond_lag] rejects at least as much.  For such a call the window of
    [x] of a task is never longer than in the call with [cond_lag = 0]; it
    is strictly shorter exactly when [cond_lag > 0], or [cond_lag < 0] and
    the least lag plus [cond_lag] is negative.  When the greatest lag is
    not negative the window of [y] has the length of the window of [x] in
    both calls. *)
Theorem cond_lag_without_cond {R : Type} (dflt : R) (y : list R)
    (x : xarray R) (lag : lag_arg) (k c : Z) (mask : option mask_array)
    (parallel : option string) (p : plan R) :
  prepare dflt y x lag k None c mask parallel = Ok p →
  ∃ lo hi p0,
    extremes (as_lag_array lag) lo hi ∧
    lag_bounds (as_lag_array lag) c
    = Ok (Z.min lo (lo + c), Z.max hi (hi + c)) ∧
    lag_bounds (as_lag_array lag) 0 = Ok (lo, hi) ∧
    prepare dflt y x lag k None 0 mask parallel = Ok p0 ∧
    (∀ t, t ∈ p_params p →
          t_cond t = None ∧
          t_min_lag t = Z.min lo (lo + c) ∧
          t_max_lag t = Z.max hi (hi + c)) ∧
    (∀ t t0, t ∈ p_params p → t0 ∈ p_params p0 →
       len (x_window t) ≤ len (x_window t0) ∧
       (len (x_window t) < len (x_window t0) ↔
        0 < c ∨ (c < 0 ∧ lo + c < 0)) ∧
       (0 ≤ hi →
        len (y_window t) = len (x_window t) ∧
        len (y_window t0) = len (x_window t0))).
Proof.
  intros Hp.
  pose proof Hp as (Hok & mn & mx & par & Hb & Hl & Hpar & Hpl)%prepare_ok.
  pose proof Hb as (lo & hi & Hext & Hmn & Hmx)%lag_bounds_ok.
  assert (as_lag_array lag ≠ []) as Hne.
  { destruct Hext as (Hlo & _). intros Hnil. rewrite Hnil in Hlo.
    by apply elem_of_nil in Hlo. }
  pose proof (lag_bounds_zero _ _ _ Hne Hext) as Hb0.
  pose proof (proj1 (lag_too_large_false _ _ _) Hl) as Hck.
  assert (lo ≤ hi) as Hlohi by (destruct Hext as (Hlo & _ & H); apply H, Hlo).
  assert (lag_too_large (len y) lo hi = false) as Hl0
    by (apply lag_too_large_false; lia).
  assert (prepare dflt y x lag k None 0 mask parallel
          = Ok (Plan (length (as_lag_array lag)) (x_nvar x)
                  (indices (length (as_lag_array lag)) (x_nvar x))
                  (params dflt x y (as_lag_array lag) hi lo k mask None 0)
                  par)) as Hp0.
  { apply prepare_ok. split; [done|]. by exists lo, hi, par. }
  exists lo, hi. eexists. rewrite <- Hmn, <- Hmx.
  split; [done|]. split; [done|]. split; [done|]. split; [exact Hp0|].
  split.
  - intros t Ht. rewrite Hpl in Ht. simpl in Ht.
    by apply elem_of_params in Ht as (_ & _ & _ & ? & ? & _ & _ & ? & _).
  - intros t t0 Ht Ht0.
    destruct (prepare_tasks dflt _ _ _ _ _ _ _ _ _ _ _ _ Hp Hb Ht)
      as (_ & Htc & _).
    destruct (prepare_tasks dflt _ _ _ _ _ _ _ _ _ _ _ _ Hp0 Hb0 Ht0)
      as (_ & Htc0 & _).
    rewrite (x_window_len _ _ _ _ _ _ Hb Hl Htc),
            (x_window_len _ _ _ _ _ _ Hb0 Hl0 Htc0).
    split; [lia|]. split; [lia|].
    intros Hhi.
    rewrite (y_window_len _ _ _ _ _ _ Hl Htc) by lia.
    by rewrite (y_window_len _ _ _ _ _ _ Hl0 Htc0).
Qed.

Lemma cond_lag_without_cond_witness :
  prepare 0 Sample.series (X1d Sample.series) (LagSeq [0; 1]) 1 None 1
    None None
  = Ok (Plan 2 1 [(0, 0)%nat; (1, 0)%nat]
          [Task Sample.series Sample.series 0 2 0 1 None None 1;
           Task Sample.series Sample.series 1 2 0 1 None None 1] false) ∧
  ∃ lo hi p0,
    lag_bounds [0; 1] 1 = Ok (Z.min lo (lo + 1), Z.max hi (hi + 1)) ∧
    lag_bounds [0; 1] 0 = Ok (lo, hi) ∧
    prepare 0 Sample.series (X1d Sample.series) (LagSeq [0; 1]) 1 None 0
      None None = Ok p0.
Proof.
  split; [reflexivity|].
  destruct (cond_lag_without_cond 0 Sample.series (X1d Sample.series)
              (LagSeq [0; 1]) 1 1 None None _ eq_refl)
    as (lo & hi & p0 & _ & Hb & Hb0 & Hp0 & _).
  by exists lo, hi, p0.
Defined.

(** C10 as stated fails: for [y = x = [0, .., 9]], the single lag 5 and no
    [cond], the call with [cond_lag = -2] has [min_lag = 3] where the call
    with [cond_lag = 0] has [min_lag = 5], and yet both calls have the same
    windows of [x] and [y], five elements long; neither is shrunk, and the
    lag check accepts and rejects the same series lengths, those above 5
    and those up to 5. *)
Lemma cond_lag_need_not_shrink :
  prepare 0 Sample.decade (X1d Sample.decade) (LagInt 5) 1 None (-2)
    None None
  = Ok (Plan 1 1 [(0, 0)%nat]
          [Task Sample.decade Sample.decade 5 5 3 1 None None (-2)] false) ∧
  prepare 0 Sample.decade (X1d Sample.decade) (LagInt 5) 1 None 0
    None None
  = Ok (Plan 1 1 [(0, 0)%nat]
          [Task Sample.decade Sample.decade 5 5 5 1 None None 0] false) ∧
  x_window (Task Sample.decade Sample.decade 5 5 3 1 None None (-2))
  = [0; 1; 2; 3; 4] ∧
  x_window (Task Sample.decade Sample.decade 5 5 5 1 None None 0)
  = [0; 1; 2; 3; 4] ∧
  y_window (Task Sample.decade Sample.decade 5 5 3 1 None None (-2))
  = [5; 6; 7; 8; 9] ∧
  y_window (Task Sample.decade Sample.decade 5 5 5 1 None None 0)
  = [5; 6; 7; 8; 9] ∧
  (∀ n, lag_too_large n 3 5 = lag_too_large n 5 5).
Proof.
  repeat split. intros n. unfold lag_too_large.
  destruct (Z.geb_spec (5 - 3) n), (Z.geb_spec (5 - 5) n),
    (Z.geb_spec 5 n), (Z.leb_spec 3 (- n)), (Z.leb_spec 5 (- n));
    simpl; try done; lia.
Qed.

(** * Further properties of the driver *)

(** ** Calls that can never run a task *)

Lemma lag_bounds_ordered (lags : list Z) (c mn mx : Z) :
  lag_bounds lags c = Ok (mn, mx) → mn ≤ mx.
Proof.
  intros (lo & hi & (Hlo & _ & H) & -> & ->)%lag_bounds_ok.
  specialize (H lo Hlo). lia.
Qed.

(** X1.  An empty sequence of lags never yields a grid: the call fails and
    no task has run; when the validator has passed, the failure is the
    [ValueError] of [np.min] on an empty array. *)
Theorem empty_lag_rejected {R F : Type} (dflt : R)
    (est1 : list R → list R → Z → result F)
    (est2 : list R → list R → list R → Z → result F)
    (pool : (task R → result F) → list (task R) → list (result F))
    (y : list R) (x : xarray R) (k : Z) (cond : option (list R)) (c : Z)
    (mask : option mask_array) (parallel : option string) :
  ∃ e,
    estimate_mi dflt est1 est2 pool y x (LagSeq []) k cond c mask parallel
    = ([], Raise e) ∧
    (_check_parameters x y k cond mask = Ok tt → ∃ msg, e = ValueError msg).
Proof.
  destruct (result_unit_cases (_check_parameters x y k cond mask))
    as [Hok|[e He]].
  - eexists. split.
    + apply estimate_mi_rejected. unfold prepare. rewrite Hok. reflexivity.
    + intros _. by eexists.
  - exists e. split; [|congruence].
    apply estimate_mi_rejected. by apply prepare_check_failed.
Qed.

(** X2.  A call on an empty [y] always fails, and no task has run: either
    the validator raises, or there is no lag, or the lag check finds
    [max_lag - min_lag >= 0 = N]. *)
Theorem empty_series_rejected {R F : Type} (dflt : R)
    (est1 : list R → list R → Z → result F)
    (est2 : list R → list R → list R → Z → result F)
    (pool : (task R → result F) → list (task R) → list (result F))
    (x : xarray R) (lag : lag_arg) (k : Z) (cond : option (list R)) (c : Z)
    (mask : option mask_array) (parallel : option string) :
  ∃ e,
    estimate_mi dflt est1 est2 pool [] x lag k cond c mask parallel
    = ([], Raise e).
Proof.
  destruct (prepare dflt [] x lag k cond c mask parallel) as [p|e] eqn:Hp.
  - apply prepare_ok in Hp as (_ & mn & mx & par & Hb & Hl & _).
    apply lag_bounds_ordered in Hb. apply lag_too_large_false in Hl.
    unfold len in Hl. simpl in Hl. lia.
  - exists e. by apply estimate_mi_rejected.
Qed.

(** ** The kind of failure of the validator *)

(** X3.  When [_check_parameters] raises, the exception is never an
    [IndexError], and it is a [TypeError] exactly when all lengths agree,
    [k] is below the number of observations, and a mask of the right
    length is given whose dtype is not boolean; in every other case it is
    a [ValueError]. *)
Theorem check_parameters_failure_kind {R : Type} (y : list R) (x : xarray R)
    (k : Z) (cond : option (list R)) (mask : option mask_array) (e : exn) :
  _check_parameters x y k cond mask = Raise e →
  (∀ msg, e ≠ IndexError msg) ∧
  ((∃ msg, e = TypeError msg) ∨ (∃ msg, e = ValueError msg)) ∧
  ((∃ msg, e = TypeError msg) ↔
   x_shape0 x = len y ∧
   (∀ cs, cond = Some cs → len cs = len y) ∧
   k < x_shape0 x ∧
   ∃ m, mask = Some m ∧ mask_len m = len y ∧ mask_dtype_is_bool m = false).
Proof.
  unfold _check_parameters.
  destruct (Z.eqb_spec (x_shape0 x) (len y)) as [Hxy|Hxy]; simpl.
  2:{ intros [= <-]. split; [done|]. split; [right; by eexists|].
      split; [by intros [? ?] | by intros [? _]]. }
  destruct (match cond with Some cs => _ | None => _ end) eqn:Hcond.
  { intros [= <-]. split; [done|]. split; [right; by eexists|].
    split; [by intros [? ?]|]. intros (_ & Hc & _). exfalso.
    destruct cond as [cs|]; [|done]. specialize (Hc cs eq_refl).
    destruct (Z.eqb_spec (x_shape0 x) (len cs)); [done | lia]. }
  assert (∀ cs, cond = Some cs → len cs = len y) as Hc.
  { intros cs ->. destruct (Z.eqb_spec (x_shape0 x) (len cs)); [lia|done]. }
  destruct (Z.leb_spec (x_shape0 x) k) as [Hk|Hk].
  { intros [= <-]. split; [done|]. split; [right; by eexists|].
    split; [by intros [? ?]|]. intros (_ & _ & ? & _). lia. }
  destruct mask as [m|]; [|done].
  destruct (Z.eqb_spec (mask_len m) (len y)) as [Hm|Hm]; simpl.
  2:{ intros [= <-]. split; [done|]. split; [right; by eexists|].
      split; [by intros [? ?]|]. by intros (_ & _ & _ & ? & [= <-] & ? & _). }
  destruct (mask_dtype_is_bool m) eqn:Hd; simpl; [done|].
  intros [= <-]. split; [done|]. split; [left; by eexists|].
  split; [|by eexists]. intros _. split; [done|]. split; [done|].
  split; [done|]. by exists m.
Qed.

Lemma check_parameters_failure_kind_witness :
  _check_parameters (X1d Sample.series) Sample.series 1 None
    (Some (IntArray [1; 0; 1; 1; 0]))
  = Raise (TypeError "mask must contain only booleans") ∧
  ∃ m, Some (IntArray [1; 0; 1; 1; 0]) = Some m ∧
       mask_len m = len Sample.series ∧ mask_dtype_is_bool m = false.
Proof.
  split; [reflexivity|].
  destruct (check_parameters_failure_kind Sample.series (X1d Sample.series)
              1 None (Some (IntArray [1; 0; 1; 1; 0])) _ eq_refl)
    as (_ & _ & Hiff).
  destruct (proj1 Hiff) as (_ & _ & _ & H); [by eexists | exact H].
Defined.

(** ** What the lag check guarantees *)

(** X4.  Every task of a call that has passed the lag check has a window
    of [x] with at least one observation, and so has its window of [y]
    when [max_lag] is not negative.  For a non-negative [max_lag] the
    check is exact: it rejects precisely when [N - (max_lag -
    min(min_lag, 0))], the number of observations the windows would hold,
    is not positive. *)
Theorem lag_check_leaves_observations {R : Type} (dflt : R) (y : list R)
    (x : xarray R) (lag : lag_arg) (k : Z) (cond : option (list R)) (c : Z)
    (mask : option mask_array) (parallel : option string)
    (mn mx : Z) :
  lag_bounds (as_lag_array lag) c = Ok (mn, mx) →
  (∀ p t,
     prepare dflt y x lag k cond c mask parallel = Ok p →
     t ∈ p_params p →
     1 ≤ len (x_window t) ∧ (0 ≤ mx → 1 ≤ len (y_window t))) ∧
  (0 ≤ mx →
   (lag_too_large (len y) mn mx = true ↔ len y - (mx - Z.min mn 0) ≤ 0)).
Proof.
  intros Hb. split.
  - intros p t Hp Hin.
    destruct (prepare_tasks dflt _ _ _ _ _ _ _ _ _ _ _ _ Hp Hb Hin)
      as (Hl & Ht & _).
    pose proof (proj1 (lag_too_large_false _ _ _) Hl) as Hck.
    rewrite (x_window_len _ _ _ _ _ _ Hb Hl Ht). split; [lia|].
    intros Hmx. rewrite (y_window_len _ _ _ _ _ _ Hl Ht Hmx). lia.
  - intros Hmx. pose proof (lag_bounds_ordered _ _ _ _ Hb).
    rewrite lag_too_large_true. lia.
Qed.

Lemma lag_check_leaves_observations_witness :
  lag_bounds [0; 1; -1] 1 = Ok (-1, 2) ∧
  1 ≤ len (x_window Sample.task3) ∧
  (lag_too_large 5 (-1) 2 = true ↔ 5 - (2 - Z.min (-1) 0) ≤ 0).
Proof.
  destruct (lag_check_leaves_observations 0 Sample.series Sample.matrix
              (LagSeq [0; 1; -1]) 1 (Some Sample.series) 1
              (Some Sample.some_mask) None (-1) 2 eq_refl)
    as (Hwin & Hexact).
  split; [reflexivity|]. split.
  - refine (proj1 (Hwin Sample.plan3 Sample.task3 eq_refl _)).
    vm_compute. do 3 apply list_elem_of_further. apply list_elem_of_here.
  - apply Hexact. lia.
Defined.

(** ** The meaning of a lag *)

(** X5.  [y(t + lag) ~ x(t)]: in a call whose [max_lag] is not negative,
    the [i]-th observation of the three windows of a task are [y[s]],
    [x[s - lag]] and [cond[s - (lag + cond_lag)]] for the same time
    [s = max_lag + i], and all three positions lie inside the arrays. *)
Theorem windows_pair_lagged_observations {R : Type} (dflt : R) (y : list R)
    (x : xarray R) (lag : lag_arg) (k : Z) (cond : option (list R)) (c : Z)
    (mask : option mask_array) (parallel : option string)
    (p : plan R) (mn mx : Z) (t : task R) (i : nat) :
  prepare dflt y x lag k cond c mask parallel = Ok p →
  lag_bounds (as_lag_array lag) c = Ok (mn, mx) →
  0 ≤ mx →
  t ∈ p_params p →
  Z.of_nat i < len y - (mx - Z.min mn 0) →
  0 ≤ mx + Z.of_nat i - (t_lag t + c) ∧
  0 ≤ mx + Z.of_nat i - t_lag t ∧
  mx + Z.of_nat i < len y ∧
  y_window t !! i = y !! Z.to_nat (mx + Z.of_nat i) ∧
  x_window t !! i = t_x t !! Z.to_nat (mx + Z.of_nat i - t_lag t) ∧
  is_Some (y_window t !! i) ∧ is_Some (x_window t !! i) ∧
  (∀ cs, cond = Some cs →
         cond_window t cs !! i
         = cs !! Z.to_nat (mx + Z.of_nat i - (t_lag t + c)) ∧
         is_Some (cond_window t cs !! i)).
Proof.
  intros Hp Hb Hmx Hin Hi.
  destruct (prepare_tasks dflt _ _ _ _ _ _ _ _ _ _ _ _ Hp Hb Hin)
    as (Hl & Ht & Hy & _ & _ & Hc).
  pose proof (x_window_range _ _ _ _ _ _ Hb Hl Ht) as (Hx1 & Hx2 & Hx3).
  pose proof (cond_window_range _ _ _ _ _ _ Hb Hl Ht) as (Hc1 & Hc2 & Hc3).
  pose proof (proj1 (lag_too_large_false _ _ _) Hl) as Hck.
  assert (y_window t !! i = y !! Z.to_nat (mx + Z.of_nat i)) as Hyi.
  { rewrite (y_window_span _ _ _ _ _ _ Hl Ht Hmx), Hy.
    rewrite span_lookup by lia. f_equal. lia. }
  assert (x_window t !! i = t_x t !! Z.to_nat (mx + Z.of_nat i - t_lag t))
    as Hxi.
  { rewrite (x_window_span _ _ _ _ _ _ Hb Hl Ht).
    rewrite span_lookup by lia. f_equal. lia. }
  split; [lia|]. split; [lia|]. split; [lia|].
  split; [done|]. split; [done|]. split; [|split].
  - rewrite Hyi. apply lookup_lt_is_Some. unfold len in *. lia.
  - rewrite Hxi. apply lookup_lt_is_Some.
    pose proof (toc_x _ _ _ _ _ _ Ht). unfold len in *. lia.
  - intros cs ->.
    assert (cond_window t cs !! i
            = cs !! Z.to_nat (mx + Z.of_nat i - (t_lag t + c))) as Hci.
    { rewrite (cond_window_span _ _ _ _ _ _ Hb Hl Ht _ Hc).
      rewrite span_lookup by lia. f_equal. lia. }
    split; [done|]. rewrite Hci. apply lookup_lt_is_Some.
    pose proof (toc_cond _ _ _ _ _ _ Ht _ Hc). unfold len in *. lia.
Qed.

Lemma windows_pair_lagged_observations_witness :
  lag_bounds [0; 1; -1] 1 = Ok (-1, 2) ∧ 0 ≤ 2 ∧
  Z.of_nat 1 < len Sample.series - (2 - Z.min (-1) 0) ∧
  y_window Sample.task3 !! 1%nat = Sample.series !! 3%nat ∧
  x_window Sample.task3 !! 1%nat = [2; 4; 6; 8; 10] !! 2%nat ∧
  cond_window Sample.task3 Sample.series !! 1%nat = Sample.series !! 1%nat.
Proof.
  assert (Sample.task3 ∈ p_params Sample.plan3) as Hin.
  { vm_compute. do 3 apply list_elem_of_further. apply list_elem_of_here. }
  assert (0 ≤ 2) as Hmx by lia.
  assert (Z.of_nat 1 < len Sample.series - (2 - Z.min (-1) 0)) as Hi
    by (vm_compute; reflexivity).
  destruct (windows_pair_lagged_observations 0 Sample.series Sample.matrix
              (LagSeq [0; 1; -1]) 1 (Some Sample.series) 1
              (Some Sample.some_mask) None Sample.plan3 (-1) 2
              Sample.task3 1 eq_refl eq_refl Hmx Hin Hi)
    as (_ & _ & _ & Hy & Hx & _ & _ & Hc).
  split; [reflexivity|]. split; [exact Hmx|]. split; [exact Hi|].
  split; [exact Hy|]. split; [exact Hx|].
  exact (proj1 (Hc _ eq_refl)).
Defined.

(** X6.  For a single lag [l >= 0] on a series, without [cond] and mask,
    the one task pairs the first [N - l] observations of [x] with the
    last [N - l] observations of [y], and these are what the estimator
    receives; for [l = 0] they are the whole of [x] and of [y]. *)
Theorem single_nonnegative_lag_windows {R F : Type} (dflt : R)
    (est1 : list R → list R → Z → result F)
    (est2 : list R → list R → list R → Z → result F)
    (y v : list R) (l k : Z) (parallel : option string) (p : plan R) :
  prepare dflt y (X1d v) (LagInt l) k None 0 None parallel = Ok p →
  0 ≤ l →
  p_params p = [Task v y l l l k None None 0] ∧
  x_window (Task v y l l l k None None 0)
  = take (length v - Z.to_nat l) v ∧
  y_window (Task v y l l l k None None 0) = drop (Z.to_nat l) y ∧
  length (take (length v - Z.to_nat l) v) = length (drop (Z.to_nat l) y) ∧
  _lagged_mi est1 est2 (Task v y l l l k None None 0)
  = est1 (take (length v - Z.to_nat l) v) (drop (Z.to_nat l) y) k ∧
  (l = 0 →
   _lagged_mi est1 est2 (Task v y l l l k None None 0) = est1 v y k).
Proof.
  intros (Hchk & mn & mx & par & Hb & Hl & _ & ->)%prepare_ok Hpos.
  apply check_parameters_ok in Hchk as (Hx & _ & _ & _). simpl in Hx.
  simpl in Hb. injection Hb as <- <-.
  apply lag_too_large_false in Hl.
  replace (Z.min l (l + 0)) with l in * by lia.
  replace (Z.max l (l + 0)) with l in * by lia.
  assert (x_window (Task v y l l l k None None 0)
          = take (length v - Z.to_nat l) v) as Hxw.
  { unfold x_window. simpl.
    rewrite py_slice_in_range by lia.
    replace (Z.to_nat (l - l)) with 0%nat by lia. rewrite drop_0.
    f_equal. unfold len. lia. }
  assert (y_window (Task v y l l l k None None 0) = drop (Z.to_nat l) y)
    as Hyw.
  { unfold y_window. simpl.
    rewrite py_slice_in_range by lia.
    apply take_ge. rewrite length_drop. unfold len. lia. }
  assert (_lagged_mi est1 est2 (Task v y l l l k None None 0)
          = est1 (take (length v - Z.to_nat l) v) (drop (Z.to_nat l) y) k)
    as Hrun.
  { unfold _lagged_mi, masked. simpl. by rewrite Hxw, Hyw. }
  split; [done|]. split; [done|]. split; [done|]. split; [|split; [done|]].
  - rewrite length_take, length_drop. unfold len in *. lia.
  - intros ->. rewrite Hrun. simpl.
    by rewrite Nat.sub_0_r, firstn_all, drop_0.
Qed.

Lemma single_nonnegative_lag_windows_witness :
  prepare 0 Sample.series (X1d Sample.series) (LagInt 2) 1 None 0 None None
  = Ok (Plan 1 1 [(0, 0)%nat] [Sample.single 2] false) ∧
  0 ≤ 2 ∧
  x_window (Sample.single 2) = [1; 2; 3] ∧
  y_window (Sample.single 2) = [3; 4; 5].
Proof.
  assert (0 ≤ 2) as Hpos by lia.
  destruct (single_nonnegative_lag_windows 0 Sample.sizes1 Sample.sizes2
              Sample.series Sample.series 2 1 None
              (Plan 1 1 [(0, 0)%nat] [Sample.single 2] false)
              eq_refl Hpos)
    as (_ & Hx & Hy & _).
  split; [reflexivity|]. split; [exact Hpos|].
  split; [exact Hx | exact Hy].
Defined.

(** ** Masked tasks *)

Lemma bool_select_length {A : Type} (a : list A) (bs : list bool) :
  length a = length bs → length (bool_select a bs) = count_true bs.
Proof.
  revert bs. induction a as [|v a IH]; intros [|b bs]; simpl; try done.
  intros [= Hlen]. destruct b; simpl; by rewrite IH.
Qed.

Lemma bool_select_zip {A B : Type} (a : list A) (b : list B)
    (bs : list bool) :
  bool_select (zip a b) bs = zip (bool_select a bs) (bool_select b bs).
Proof.
  revert b bs. induction a as [|v a IH]; intros [|w b] [|m bs]; simpl;
    try done.
  - by destruct m, (bool_select a bs).
  - destruct m; simpl; by rewrite IH.
Qed.

Lemma bool_select_none {A : Type} (a : list A) (n : nat) :
  bool_select a (replicate n false) = [].
Proof.
  revert n. induction a as [|v a IH]; intros [|n]; simpl; try done.
Qed.

Section Masked.

Context {R F : Type}.
Variable dflt : R.
Variable est1 : list R → list R → Z → result F.
Variable est2 : list R → list R → list R → Z → result F.

(** The task of a call with a boolean mask and a non-negative [max_lag]:
    the window of the mask is as long as the windows of the arrays, and
    the estimator receives their selections. *)
Lemma lagged_mi_masked (y : list R) x lag k cond c full parallel
    (p : plan R) mn mx (t : task R) :
  prepare dflt y x lag k cond c (Some (BoolArray full)) parallel = Ok p →
  lag_bounds (as_lag_array lag) c = Ok (mn, mx) →
  0 ≤ mx →
  t ∈ p_params p →
  length (span full mx (len y + Z.min mn 0)) = length (x_window t) ∧
  length (span full mx (len y + Z.min mn 0)) = length (y_window t) ∧
  (∀ cs, cond = Some cs →
         length (span full mx (len y + Z.min mn 0))
         = length (cond_window t cs)) ∧
  _lagged_mi est1 est2 t
  = match cond with
    | None =>
        est1 (bool_select (x_window t) (span full mx (len y + Z.min mn 0)))
             (bool_select (y_window t) (span full mx (len y + Z.min mn 0)))
             k
    | Some cs =>
        est2 (bool_select (x_window t) (span full mx (len y + Z.min mn 0)))
             (bool_select (y_window t) (span full mx (len y + Z.min mn 0)))
             (bool_select (cond_window t cs)
                          (span full mx (len y + Z.min mn 0)))
             k
    end.
Proof.
  intros Hp Hb Hmx Hin.
  destruct (prepare_tasks dflt _ _ _ _ _ _ _ _ _ _ _ _ Hp Hb Hin)
    as (Hl & Ht & Hy & Hk & Hm & Hc).
  pose proof (proj1 (lag_too_large_false _ _ _) Hl) as Hck.
  apply prepare_ok in Hp as (Hok & _).
  apply check_parameters_ok in Hok as (_ & _ & _ & Hmask).
  destruct (Hmask _ eq_refl) as [Hfull _]. simpl in Hfull.
  pose proof (x_window_len _ _ _ _ _ _ Hb Hl Ht) as Hxl.
  pose proof (y_window_len _ _ _ _ _ _ Hl Ht Hmx) as Hyl.
  assert (len (span full mx (len y + Z.min mn 0))
          = len y - (mx - Z.min mn 0)) as Hsl
    by (rewrite span_len; lia).
  assert (mask_window t (BoolArray full)
          = BoolArray (span full mx (len y + Z.min mn 0))) as Hmw.
  { unfold mask_window, mask_slice.
    rewrite (toc_max _ _ _ _ _ _ Ht), (toc_min _ _ _ _ _ _ Ht), Hy.
    f_equal. apply py_slice_in_range; lia. }
  assert (∀ a : list R,
            len a = len y - (mx - Z.min mn 0) →
            masked t a
            = Ok (bool_select a (span full mx (len y + Z.min mn 0))))
    as Hsel.
  { intros a Ha. unfold masked. rewrite Hm, Hmw. unfold nd_index.
    destruct (decide _) as [_|Hne]; [done|].
    destruct Hne. unfold len in *. lia. }
  split; [unfold len in *; lia|]. split; [unfold len in *; lia|].
  split.
  { intros cs ->.
    pose proof (cond_window_len _ _ _ _ _ _ Hb Hl Ht _ Hc).
    unfold len in *. lia. }
  unfold _lagged_mi. rewrite (Hsel _ Hxl), (Hsel _ Hyl), Hc, Hk.
  destruct cond as [cs|]; [|done].
  by rewrite (Hsel _ (cond_window_len _ _ _ _ _ _ Hb Hl Ht _ Hc)).
Qed.

End Masked.

(** X7.  In a call with a mask whose [max_lag] is not negative, the mask
    is boolean, and each task hands the estimator the observations of its
    windows at the [True] positions of [mask[max_lag : N+min(min_lag, 0)]],
    in their order: all the arrays handed over have as many elements as
    that mask window has [True] entries, and the selected [x] and [y] are
    the pairs of the windows at those positions. *)
Theorem masked_task_inputs {R F : Type} (dflt : R)
    (est1 : list R → list R → Z → result F)
    (est2 : list R → list R → list R → Z → result F)
    (y : list R) (x : xarray R) (lag : lag_arg) (k : Z)
    (cond : option (list R)) (c : Z) (m : mask_array)
    (parallel : option string) (p : plan R) (mn mx : Z) (t : task R) :
  prepare dflt y x lag k cond c (Some m) parallel = Ok p →
  lag_bounds (as_lag_array lag) c = Ok (mn, mx) →
  0 ≤ mx →
  t ∈ p_params p →
  ∃ full bits xs ys,
    m = BoolArray full ∧
    bits = span full mx (len y + Z.min mn 0) ∧
    xs = bool_select (x_window t) bits ∧
    ys = bool_select (y_window t) bits ∧
    length xs = count_true bits ∧
    length ys = count_true bits ∧
    zip xs ys = bool_select (zip (x_window t) (y_window t)) bits ∧
    match cond with
    | None => _lagged_mi est1 est2 t = est1 xs ys k
    | Some cs =>
        _lagged_mi est1 est2 t
        = est2 xs ys (bool_select (cond_window t cs) bits) k ∧
        length (bool_select (cond_window t cs) bits) = count_true bits
    end.
Proof.
  intros Hp Hb Hmx Hin.
  assert (∃ full, m = BoolArray full) as [full ->].
  { pose proof Hp as (Hok & _)%prepare_ok.
    apply check_parameters_ok in Hok as (_ & _ & _ & Hmask).
    destruct (Hmask _ eq_refl) as [_ Hd].
    destruct m as [full|zs]; [by exists full | done]. }
  destruct (lagged_mi_masked dflt est1 est2 _ _ _ _ _ _ _ _ _ _ _ _
              Hp Hb Hmx Hin) as (Hxl & Hyl & Hcl & Hrun).
  eexists full, _, _, _.
  split; [done|]. split; [done|]. split; [done|]. split; [done|].
  split; [by apply bool_select_length|].
  split; [by apply bool_select_length|].
  split; [by rewrite bool_select_zip|].
  destruct cond as [cs|]; [|done].
  split; [done|]. apply bool_select_length. symmetry. by apply Hcl.
Qed.

Lemma masked_task_inputs_witness :
  lag_bounds [0; 1; -1] 1 = Ok (-1, 2) ∧ 0 ≤ 2 ∧
  ∃ xs ys,
    _lagged_mi Sample.sizes1 Sample.sizes2 Sample.task3
    = Sample.sizes2 xs ys
        (bool_select (cond_window Sample.task3 Sample.series)
                     (span [true; true; false; true; true] 2
                           (len Sample.series + Z.min (-1) 0))) 1 ∧
    length xs = length ys.
Proof.
  assert (Sample.task3 ∈ p_params Sample.plan3) as Hin.
  { vm_compute. do 3 apply list_elem_of_further. apply list_elem_of_here. }
  assert (0 ≤ 2) as Hmx by lia.
  destruct (masked_task_inputs 0 Sample.sizes1 Sample.sizes2
              Sample.series Sample.matrix (LagSeq [0; 1; -1]) 1
              (Some Sample.series) 1 Sample.some_mask None Sample.plan3
              (-1) 2 Sample.task3 eq_refl eq_refl Hmx Hin)
    as (full & bits & xs & ys & Hm & -> & _ & _ & Hx & Hy & _ & Hrun & _).
  injection Hm as <-.
  split; [reflexivity|]. split; [exact Hmx|].
  exists xs, ys. split; [exact Hrun | by rewrite Hx, Hy].
Defined.

(** X8.  [k] is compared with the number of observations of the input
    only: in a call with a non-negative [max_lag] and a mask of [N] times
    [False], every task still reaches the estimator, with empty arrays. *)
Theorem all_false_mask_reaches_estimator {R F : Type} (dflt : R)
    (est1 : list R → list R → Z → result F)
    (est2 : list R → list R → list R → Z → result F)
    (y : list R) (x : xarray R) (lag : lag_arg) (k : Z)
    (cond : option (list R)) (c : Z)
    (parallel : option string) (p : plan R) (mn mx : Z) (t : task R) :
  prepare dflt y x lag k cond c
    (Some (BoolArray (replicate (length y) false))) parallel = Ok p →
  lag_bounds (as_lag_array lag) c = Ok (mn, mx) →
  0 ≤ mx →
  t ∈ p_params p →
  _lagged_mi est1 est2 t
  = match cond with
    | None => est1 [] [] k
    | Some _ => est2 [] [] [] k
    end.
Proof.
  intros Hp Hb Hmx Hin.
  destruct (lagged_mi_masked dflt est1 est2 _ _ _ _ _ _ _ _ _ _ _ _
              Hp Hb Hmx Hin) as (_ & _ & _ & ->).
  unfold span. rewrite drop_replicate, take_replicate.
  destruct cond as [cs|]; by rewrite !bool_select_none.
Qed.

Lemma all_false_mask_reaches_estimator_witness :
  prepare 0 Sample.series (X1d Sample.series) (LagInt 1) 4 None 0
    (Some (BoolArray (replicate 5 false))) None
  = Ok (Plan 1 1 [(0, 0)%nat]
          [Task Sample.series Sample.series 1 1 1 4
             (Some (BoolArray (replicate 5 false))) None 0] false) ∧
  0 ≤ 1 ∧
  _lagged_mi Sample.sizes1 Sample.sizes2
    (Task Sample.series Sample.series 1 1 1 4
       (Some (BoolArray (replicate 5 false))) None 0)
  = Ok (0%nat, 0%nat, 0%nat).
Proof.
  assert (0 ≤ 1) as Hmx by lia.
  split; [reflexivity|]. split; [exact Hmx|].
  refine (all_false_mask_reaches_estimator 0 Sample.sizes1 Sample.sizes2
            Sample.series (X1d Sample.series) (LagInt 1) 4 None 0 None
            _ 1 1 _ eq_refl eq_refl Hmx _).
  apply list_elem_of_here.
Defined.

(** ** Calls whose lags are all negative *)

(** X9.  When [max_lag] is negative, that is when every lag and every lag
    plus [cond_lag] is negative, each task of a call that has passed the
    checks has an empty window of [y], while its windows of [x] and of
    [cond] hold [N - (max_lag - min_lag) >= 1] observations.  With a
    boolean mask the window of the mask is empty too, it selects nothing
    from any window, and the estimator receives empty arrays only; without
    mask and [cond] the estimator receives the window of [x] and an empty
    [y]. *)
Theorem negative_max_lag_tasks {R F : Type} (dflt : R)
    (est1 : list R → list R → Z → result F)
    (est2 : list R → list R → list R → Z → result F)
    (y : list R) (x : xarray R) (lag : lag_arg) (k : Z)
    (cond : option (list R)) (c : Z) (mask : option mask_array)
    (parallel : option string) (p : plan R) (mn mx : Z) (t : task R) :
  prepare dflt y x lag k cond c mask parallel = Ok p →
  lag_bounds (as_lag_array lag) c = Ok (mn, mx) →
  mx < 0 →
  t ∈ p_params p →
  (∀ l, l ∈ as_lag_array lag → l < 0 ∧ l + c < 0) ∧
  y_window t = [] ∧
  len (x_window t) = len y - (mx - mn) ∧
  1 ≤ len (x_window t) ∧
  (∀ cs, cond = Some cs → len (cond_window t cs) = len y - (mx - mn)) ∧
  (∀ full, mask = Some (BoolArray full) →
     mask_window t (BoolArray full) = BoolArray [] ∧
     _lagged_mi est1 est2 t
     = match cond with
       | None => est1 [] [] k
       | Some _ => est2 [] [] [] k
       end) ∧
  (mask = None → cond = None →
   _lagged_mi est1 est2 t = est1 (x_window t) [] k).
Proof.
  intros Hp Hb Hmx Hin.
  destruct (prepare_tasks dflt _ _ _ _ _ _ _ _ _ _ _ _ Hp Hb Hin)
    as (Hl & Ht & Hy & Hk & Hm & Hc).
  pose proof (proj1 (lag_too_large_false _ _ _) Hl) as Hck.
  pose proof (lag_bounds_ordered _ _ _ _ Hb) as Hord.
  pose proof (x_window_len _ _ _ _ _ _ Hb Hl Ht) as Hxl.
  pose proof (y_window_wrapped _ _ _ _ _ _ Hb Hl Ht Hmx) as Hyw.
  replace (Z.min mn 0) with mn in Hxl by lia.
  split.
  { intros l Hlag. destruct (bounds_enclose _ _ _ _ _ Hb Hlag). lia. }
  split; [done|]. split; [done|]. split; [lia|]. split; [|split].
  - intros cs ->.
    rewrite (cond_window_len _ _ _ _ _ _ Hb Hl Ht _ Hc). lia.
  - intros full ->.
    apply prepare_ok in Hp as (Hok & _).
    apply check_parameters_ok in Hok as (_ & _ & _ & Hmask).
    destruct (Hmask _ eq_refl) as [Hfull _]. simpl in Hfull.
    assert (mask_window t (BoolArray full) = BoolArray []) as Hmw.
    { unfold mask_window, mask_slice.
      rewrite (toc_max _ _ _ _ _ _ Ht), (toc_min _ _ _ _ _ _ Ht), Hy.
      f_equal. apply py_slice_wrapped_empty; lia. }
    split; [done|].
    unfold _lagged_mi, masked. rewrite Hm, Hmw, Hc, Hk.
    rewrite !nd_index_empty. destruct cond as [cs|]; [|done].
    cbn [mbind result_bind]. by rewrite nd_index_empty.
  - intros -> ->. unfold _lagged_mi, masked.
    rewrite Hm, Hc, Hk, Hyw. done.
Qed.

Lemma negative_max_lag_tasks_witness :
  lag_bounds [-1; -2] 0 = Ok (-2, -1) ∧ -1 < 0 ∧
  y_window (Task [2; 4; 6; 8; 10] Sample.series (-2) (-1) (-2) 1
              (Some Sample.some_mask) None 0) = [] ∧
  _lagged_mi Sample.sizes1 Sample.sizes2
    (Task [2; 4; 6; 8; 10] Sample.series (-2) (-1) (-2) 1
       (Some Sample.some_mask) None 0)
  = Ok (0%nat, 0%nat, 0%nat).
Proof.
  assert (-1 < 0) as Hmx by lia.
  assert (Task [2; 4; 6; 8; 10] Sample.series (-2) (-1) (-2) 1
            (Some Sample.some_mask) None 0
          ∈ params 0 Sample.matrix Sample.series [-1; -2] (-1) (-2) 1
              (Some Sample.some_mask) None 0) as Hin.
  { vm_compute. do 3 apply list_elem_of_further. apply list_elem_of_here. }
  destruct (negative_max_lag_tasks 0 Sample.sizes1 Sample.sizes2
              Sample.series Sample.matrix (LagSeq [-1; -2]) 1 None 0
              (Some Sample.some_mask) None
              (Plan 2 2 (indices 2 2)
                 (params 0 Sample.matrix Sample.series [-1; -2] (-1) (-2) 1
                    (Some Sample.some_mask) None 0) false)
              (-2) (-1) _ eq_refl eq_refl Hmx Hin)
    as (_ & Hy & _ & _ & _ & Hrun & _).
  split; [reflexivity|]. split; [exact Hmx|]. split; [exact Hy|].
  exact (proj2 (Hrun _ eq_refl)).
Defined.

(** ** Failing tasks *)

Section Failures.

Context {R F : Type}.
Variable est1 : list R → list R → Z → result F.
Variable est2 : list R → list R → list R → Z → result F.

(** The in-process loop stops at the first task that fails. *)
Lemma run_sequential_first_failure (g : list (list (option F))) (n m : nat)
    (ixs : list (nat * nat)) (pre post : list (task R)) (t : task R) e :
  has_shape g n m →
  (∀ ix, ix ∈ ixs → (ix.1 < n)%nat ∧ (ix.2 < m)%nat) →
  length ixs = length (pre ++ t :: post) →
  (∀ t', t' ∈ pre → is_ok (_lagged_mi est1 est2 t') = true) →
  _lagged_mi est1 est2 t = Raise e →
  run_sequential est1 est2 g (zip ixs (pre ++ t :: post))
  = (pre ++ [t], Raise e).
Proof.
  intros Hg Hin Hlen Hpre Hfail. revert g ixs Hg Hin Hlen.
  induction pre as [|t' pre IH]; intros g [|ix ixs] Hg Hin Hlen;
    try discriminate Hlen; simpl.
  - by rewrite Hfail.
  - pose proof (Hpre t' (list_elem_of_here _ _)) as Hok.
    destruct (_lagged_mi est1 est2 t') as [v|e']; [|done].
    destruct (Hin ix (list_elem_of_here _ _)) as [Hi Hj].
    destruct (set_cell_ok g n m ix v Hg Hi Hj) as (g1 & -> & Hg1 & _).
    rewrite (IH (λ t'' H, Hpre t'' (list_elem_of_further _ _ _ H)) g1 ixs);
      [done | done | | by injection Hlen].
    intros ix' Hix'. apply Hin. by apply list_elem_of_further.
Qed.

End Failures.

(** X10.  Provided the pool returns the results in the order of the
    tasks: the failure of a call that has reached the dispatch is the
    failure of the first task, in the order of the tasks, that fails,
    whichever mode runs them.  In the in-process mode the tasks after it
    are not run; in the pool mode every task has been run. *)
Theorem first_failing_task_decides {R F : Type} (dflt : R)
    (est1 : list R → list R → Z → result F)
    (est2 : list R → list R → list R → Z → result F)
    (pool : (task R → result F) → list (task R) → list (result F))
    (y : list R) (x : xarray R) (lag : lag_arg) (k : Z)
    (cond : option (list R)) (c : Z) (mask : option mask_array)
    (parallel : option string) (p : plan R)
    (pre post : list (task R)) (t : task R) (e : exn) :
  (∀ f l, pool f l = map f l) →
  prepare dflt y x lag k cond c mask parallel = Ok p →
  p_params p = pre ++ t :: post →
  (∀ t', t' ∈ pre → is_ok (_lagged_mi est1 est2 t') = true) →
  _lagged_mi est1 est2 t = Raise e →
  (estimate_mi dflt est1 est2 pool y x lag k cond c mask parallel).2
  = Raise e ∧
  (p_parallel p = false →
   (estimate_mi dflt est1 est2 pool y x lag k cond c mask parallel).1
   = pre ++ [t]) ∧
  (p_parallel p = true →
   (estimate_mi dflt est1 est2 pool y x lag k cond c mask parallel).1
   = pre ++ t :: post).
Proof.
  intros Hpool Hp Hps Hpre Hfail.
  pose proof (prepare_lengths dflt _ _ _ _ _ _ _ _ _ Hp) as Hlen.
  pose proof Hp as (_ & mn & mx & par & _ & _ & _ & Hpl)%prepare_ok.
  assert (run_sequential est1 est2 (np_empty (p_nlag p) (p_nvar p))
            (zip (p_indices p) (p_params p))
          = (pre ++ [t], Raise e)) as Hseq.
  { rewrite Hps. rewrite Hps in Hlen.
    apply (run_sequential_first_failure est1 est2 _ (p_nlag p) (p_nvar p));
      try done; [apply np_empty_shape|].
    rewrite Hpl. simpl. intros ix. apply elem_of_indices. }
  rewrite (estimate_mi_prepared _ _ _ _ _ _ _ _ _ _ _ _ _ Hp).
  split; [|split].
  - rewrite (execute_outcome _ _ _ Hpool), <- run_sequential_collect.
    by rewrite Hseq.
  - intros Hpar. unfold execute. by rewrite Hpar, Hseq.
  - intros Hpar. unfold execute. by rewrite Hpar, Hps.
Qed.

Lemma first_failing_task_decides_witness :
  (∀ (f : task Z → result (nat * nat * nat)) l, Sample.pool f l = map f l) ∧
  _lagged_mi Sample.no_ties1 Sample.no_ties2
    (Task [1; 3; 5; 7; 9] Sample.series 0 1 0 1 None None 0)
  = Ok (4%nat, 4%nat, 0%nat) ∧
  _lagged_mi Sample.no_ties1 Sample.no_ties2
    (Task [7; 7; 7; 7; 7] Sample.series 0 1 0 1 None None 0)
  = Raise (ValueError "tied observations") ∧
  estimate_mi 0 Sample.no_ties1 Sample.no_ties2 Sample.pool
    Sample.series Sample.tied_matrix (LagSeq [0; 1]) 1 None 0 None
    (Some "disable"%string)
  = ([Task [1; 3; 5; 7; 9] Sample.series 0 1 0 1 None None 0;
      Task [7; 7; 7; 7; 7] Sample.series 0 1 0 1 None None 0],
     Raise (ValueError "tied observations")).
Proof.
  assert (∀ (f : task Z → result (nat * nat * nat)) l,
            Sample.pool f l = map f l) as Hpool by reflexivity.
  split; [exact Hpool|].
  assert (_lagged_mi Sample.no_ties1 Sample.no_ties2
            (Task [1; 3; 5; 7; 9] Sample.series 0 1 0 1 None None 0)
          = Ok (4%nat, 4%nat, 0%nat)) as Hfirst by (vm_compute; reflexivity).
  assert (_lagged_mi Sample.no_ties1 Sample.no_ties2
            (Task [7; 7; 7; 7; 7] Sample.series 0 1 0 1 None None 0)
          = Raise (ValueError "tied observations")) as Hfail
    by (vm_compute; reflexivity).
  split; [exact Hfirst|]. split; [exact Hfail|].
  destruct (first_failing_task_decides 0 Sample.no_ties1 Sample.no_ties2
              Sample.pool Sample.series Sample.tied_matrix (LagSeq [0; 1]) 1
              None 0 None (Some "disable"%string)
              (Plan 2 2 (indices 2 2)
                 (params 0 Sample.tied_matrix Sample.series [0; 1] 1 0 1
                    None None 0) false)
              [Task [1; 3; 5; 7; 9] Sample.series 0 1 0 1 None None 0]
              (drop 2 (params 0 Sample.tied_matrix Sample.series [0; 1]
                         1 0 1 None None 0))
              (Task [7; 7; 7; 7; 7] Sample.series 0 1 0 1 None None 0)
              (ValueError "tied observations")
              Hpool eq_refl eq_refl)
    as (Hout & Hran & _).
  - intros t' ->%list_elem_of_singleton. by rewrite Hfirst.
  - exact Hfail.
  - specialize (Hran eq_refl).
    destruct (estimate_mi _ _ _ _ _ _ _ _ _ _ _ _) as [ran out].
    simpl in Hout, Hran. by rewrite Hout, Hran.
Defined.

(** ** The two shapes of [x] *)

Lemma column_of_singletons {R : Type} (dflt : R) (v : list R) :
  column dflt (map (λ a, [a]) v) 0 = v.
Proof.
  unfold column. rewrite map_map. simpl. apply map_id.
Qed.

(** X11.  A series and the matrix that has this series as its only column
    are treated alike: the branch that builds the tasks from the lags and
    the branch that builds them from the index pairs give the same tasks,
    and the call returns the same tasks run and the same grid or
    failure. *)
Theorem series_as_one_column {R F : Type} (dflt : R)
    (est1 : list R → list R → Z → result F)
    (est2 : list R → list R → list R → Z → result F)
    (pool : (task R → result F) → list (task R) → list (result F))
    (y v : list R) (lag : lag_arg) (k : Z) (cond : option (list R)) (c : Z)
    (mask : option mask_array) (parallel : option string) :
  (∀ mx mn,
     params dflt (X2d 1 (map (λ a, [a]) v)) y (as_lag_array lag)
            mx mn k mask cond c
     = params dflt (X1d v) y (as_lag_array lag) mx mn k mask cond c) ∧
  estimate_mi dflt est1 est2 pool y (X2d 1 (map (λ a, [a]) v)) lag k
    cond c mask parallel
  = estimate_mi dflt est1 est2 pool y (X1d v) lag k cond c mask parallel.
Proof.
  assert (∀ mx mn,
     params dflt (X2d 1 (map (λ a, [a]) v)) y (as_lag_array lag)
            mx mn k mask cond c
     = params dflt (X1d v) y (as_lag_array lag) mx mn k mask cond c) as Hps.
  { intros mx mn. rewrite !params_by_index.
    apply map_ext_in. intros ix Hix%list_elem_of_In.
    apply elem_of_indices in Hix as [_ Hj]. simpl in Hj.
    unfold task_at. f_equal. simpl.
    replace ix.2 with 0%nat by lia. apply column_of_singletons. }
  split; [exact Hps|].
  assert (_check_parameters (X2d 1 (map (λ a, [a]) v)) y k cond mask
          = _check_parameters (X1d v) y k cond mask) as Hchk.
  { unfold _check_parameters.
    change (x_shape0 (X2d 1 (map (λ a, [a]) v)))
      with (len (map (λ a : R, [a]) v)).
    change (x_shape0 (X1d v)) with (len v).
    replace (len (map (λ a : R, [a]) v)) with (len v); [done|].
    unfold len. by rewrite length_map. }
  unfold estimate_mi, prepare. rewrite Hchk.
  destruct (_check_parameters (X1d v) y k cond mask); [|done].
  cbn [mbind result_bind].
  destruct (lag_bounds (as_lag_array lag) c) as [[mn mx]|]; [|done].
  cbn [mbind result_bind]. by rewrite Hps.
Qed.

(** ** The number of tasks *)

Lemma indices_no_variable (n : nat) : indices n 0 = [].
Proof. unfold indices. simpl. by induction (seq 0 n). Qed.

(** X12.  A call that reaches the dispatch has [len(lag) * nvar] tasks.
    Without an override it is run by the pool exactly when this product
    exceeds 1 and [y] has more than 200 observations; in particular a
    single lag on a series is never run by the pool on the heuristic
    alone. *)
Theorem heuristic_by_task_count {R : Type} (dflt : R) (y : list R)
    (x : xarray R) (lag : lag_arg) (k : Z) (cond : option (list R)) (c : Z)
    (mask : option mask_array) (parallel : option string) (p : plan R) :
  prepare dflt y x lag k cond c mask parallel = Ok p →
  length (p_params p) = (length (as_lag_array lag) * x_nvar x)%nat ∧
  (parallel = None →
   (p_parallel p = true ↔
    (1 < length (as_lag_array lag) * x_nvar x)%nat ∧ (200 < length y)%nat) ∧
   (∀ l v, lag = LagInt l → x = X1d v → p_parallel p = false)).
Proof.
  intros (_ & mn & mx & par & _ & _ & Hpar & ->)%prepare_ok. simpl.
  split; [by rewrite params_by_index, length_map, length_indices|].
  intros ->. simpl in Hpar. injection Hpar as <-.
  unfold len. rewrite length_indices. split.
  - rewrite andb_true_iff, !Z.gtb_ltb, !Z.ltb_lt. lia.
  - by intros l v -> ->.
Qed.

Lemma heuristic_by_task_count_witness :
  prepare 0 Sample.series Sample.matrix (LagSeq [0; 1; -1]) 1
    (Some Sample.series) 1 (Some Sample.some_mask) None
  = Ok Sample.plan3 ∧
  length (p_params Sample.plan3) = (3 * 2)%nat.
Proof.
  split; [reflexivity|].
  exact (proj1 (heuristic_by_task_count 0 Sample.series Sample.matrix
                  (LagSeq [0; 1; -1]) 1 (Some Sample.series) 1
                  (Some Sample.some_mask) None Sample.plan3 eq_refl)).
Defined.

(** X13.  For a matrix without columns a call that passes the checks runs
    no task and never invokes the estimators or the pool's results: it
    returns a grid of [len(lag)] empty rows. *)
Theorem no_variable_no_task {R F : Type} (dflt : R)
    (est1 : list R → list R → Z → result F)
    (est2 : list R → list R → list R → Z → result F)
    (pool : (task R → result F) → list (task R) → list (result F))
    (y : list R) (rows : list (list R)) (lag : lag_arg) (k : Z)
    (cond : option (list R)) (c : Z) (mask : option mask_array)
    (parallel : option string) (p : plan R) :
  prepare dflt y (X2d 0 rows) lag k cond c mask parallel = Ok p →
  estimate_mi dflt est1 est2 pool y (X2d 0 rows) lag k cond c mask parallel
  = ([], Ok (replicate (length (as_lag_array lag)) [])).
Proof.
  intros Hp. rewrite (estimate_mi_prepared _ _ _ _ _ _ _ _ _ _ _ _ _ Hp).
  apply prepare_ok in Hp as (_ & mn & mx & par & _ & _ & _ & ->).
  unfold execute. simpl. rewrite indices_no_variable. simpl.
  by destruct par.
Qed.

Lemma no_variable_no_task_witness :
  prepare 0 Sample.series (X2d 0 [[]; []; []; []; []]) (LagSeq [0; 1]) 1
    None 0 None None
  = Ok (Plan 2 0 [] [] false) ∧
  Sample.run Sample.series (X2d 0 [[]; []; []; []; []]) (LagSeq [0; 1]) 1
    None 0 None None
  = ([], Ok [[]; []]).
Proof.
  split; [reflexivity|].
  exact (no_variable_no_task 0 Sample.sizes1 Sample.sizes2 Sample.pool
           Sample.series [[]; []; []; []; []] (LagSeq [0; 1]) 1 None 0
           None None (Plan 2 0 [] [] false) eq_refl).
Defined.

(** ** What the dispatch cannot change *)

(** X14.  Provided the pool returns the results in the order of the
    tasks, leaving the choice to the heuristic gives the outcome, grid or
    failure, of [parallel="disable"], whatever the heuristic decides. *)
Theorem heuristic_keeps_outcome {R F : Type} (dflt : R)
    (est1 : list R → list R → Z → result F)
    (est2 : list R → list R → list R → Z → result F)
    (pool : (task R → result F) → list (task R) → list (result F))
    (y : list R) (x : xarray R) (lag : lag_arg) (k : Z)
    (cond : option (list R)) (c : Z) (mask : option mask_array) :
  (∀ f l, pool f l = map f l) →
  (estimate_mi dflt est1 est2 pool y x lag k cond c mask None).2
  = (estimate_mi dflt est1 est2 pool y x lag k cond c mask
       (Some "disable"%string)).2.
Proof.
  intros Hpool. unfold estimate_mi, prepare.
  destruct (_check_parameters x y k cond mask) as [[]|e]; [|done].
  cbn [mbind result_bind].
  destruct (lag_bounds (as_lag_array lag) c) as [[mn mx]|e]; [|done].
  cbn [mbind result_bind].
  destruct (lag_too_large (len y) mn mx); [done|].
  cbn [_should_be_parallel mbind result_bind String.eqb Ascii.eqb Bool.eqb].
  by rewrite !(execute_outcome _ _ _ Hpool).
Qed.

Lemma heuristic_keeps_outcome_witness :
  (∀ (f : task Z → result (nat * nat * nat)) l, Sample.pool f l = map f l) ∧
  (Sample.run Sample.series Sample.matrix (LagSeq [0; 1; -1]) 1
     (Some Sample.series) 1 (Some Sample.some_mask) None).2
  = (Sample.run Sample.series Sample.matrix (LagSeq [0; 1; -1]) 1
       (Some Sample.series) 1 (Some Sample.some_mask)
       (Some "disable"%string)).2.
Proof.
  assert (∀ (f : task Z → result (nat * nat * nat)) l,
            Sample.pool f l = map f l) as Hpool by reflexivity.
  split; [exact Hpool|].
  exact (heuristic_keeps_outcome 0 Sample.sizes1 Sample.sizes2 Sample.pool
           Sample.series Sample.matrix (LagSeq [0; 1; -1]) 1
           (Some Sample.series) 1 (Some Sample.some_mask) Hpool).
Defined.

(** ** A mask that keeps everything, where the windows are aligned *)

(** X15.  Provided the pool returns the results in the order of the
    tasks: for a call whose [max_lag] is not negative, a mask of [N]
    times [True] gives the outcome, grid or failure, of the call without
    a mask, and each of its tasks hands the estimator what the task
    without the mask hands it. *)
Theorem keep_all_mask_is_no_mask {R F : Type} (dflt : R)
    (est1 : list R → list R → Z → result F)
    (est2 : list R → list R → list R → Z → result F)
    (pool : (task R → result F) → list (task R) → list (result F))
    (y : list R) (x : xarray R) (lag : lag_arg) (k : Z)
    (cond : option (list R)) (c : Z) (parallel : option string)
    (mn mx : Z) :
  (∀ f l, pool f l = map f l) →
  lag_bounds (as_lag_array lag) c = Ok (mn, mx) →
  0 ≤ mx →
  (estimate_mi dflt est1 est2 pool y x lag k cond c
     (Some (BoolArray (replicate (length y) true))) parallel).2
  = (estimate_mi dflt est1 est2 pool y x lag k cond c None parallel).2 ∧
  (∀ p ix,
     prepare dflt y x lag k cond c None parallel = Ok p →
     ix ∈ p_indices p →
     _lagged_mi est1 est2
       (task_at dflt x y (as_lag_array lag) mx mn k
          (Some (BoolArray (replicate (length y) true))) cond c ix)
     = _lagged_mi est1 est2
         (task_at dflt x y (as_lag_array lag) mx mn k None cond c ix)).
Proof.
  intros Hpool Hb Hmx. split.
  - exact (keep_all_same_outcome dflt est1 est2 pool Hpool
             y x lag k cond c parallel mn mx Hb Hmx).
  - intros p ix (Hok & mn' & mx' & par & Hb' & Hl & _ & ->)%prepare_ok Hix.
    rewrite Hb in Hb'. injection Hb' as <- <-.
    apply elem_of_indices in Hix as [Hi _].
    apply check_parameters_ok in Hok as (Hx & Hc & _ & _).
    by apply (lagged_mi_keep_all dflt est1 est2).
Qed.

Lemma keep_all_mask_is_no_mask_witness :
  (∀ (f : task Z → result (nat * nat * nat)) l, Sample.pool f l = map f l) ∧
  lag_bounds [0; 1; -1] 1 = Ok (-1, 2) ∧ 0 ≤ 2 ∧
  (Sample.run Sample.series Sample.matrix (LagSeq [0; 1; -1]) 1
     (Some Sample.series) 1 (Some (BoolArray (replicate 5 true))) None).2
  = (Sample.run Sample.series Sample.matrix (LagSeq [0; 1; -1]) 1
       (Some Sample.series) 1 None None).2.
Proof.
  assert (∀ (f : task Z → result (nat * nat * nat)) l,
            Sample.pool f l = map f l) as Hpool by reflexivity.
  assert (0 ≤ 2) as Hmx by lia.
  split; [exact Hpool|]. split; [reflexivity|]. split; [exact Hmx|].
  exact (proj1 (keep_all_mask_is_no_mask 0 Sample.sizes1 Sample.sizes2
                  Sample.pool Sample.series Sample.matrix
                  (LagSeq [0; 1; -1]) 1 (Some Sample.series) 1 None
                  (-1) 2 Hpool eq_refl Hmx)).
Defined.
